(** * The unidirectional compression spring of NTRT

    A shallow embedding of
    [src/core/tgBulletUnidirectionalCompressionSpring.cpp]: the spring-damper
    that, once per simulation tick, turns the separation of two anchored rigid
    bodies into a pair of impulses.

    Conventions of the embedding.
    - A C++ [double] is an exact rational number ([Q]): the arithmetic of
      the source ([+], [-], [*], [/], comparisons) is the arithmetic of an
      ordered field; rounding, infinities and NaN are outside the model.
      Division is only used on a time step that [step] has checked positive.
    - A pointer is an [option]: [None] is [NULL], and dereferencing it ends the
      computation with [null_dereference].
    - [assert] is active (a debug build): a failed assertion ends the
      computation with [assertion_failure].
    - The rigid bodies belong to the physics engine.  The spring only calls
      [activate] and [applyImpulse] on them; the calls are recorded, in order,
      in a log.  Neither call moves a body, so the anchor positions the spring
      reads are the same throughout one [step].
    - The base class [tgBulletCompressionSpring] is not part of the sources.
      Its accessors are field reads; its two geometric queries and its
      constructor are parameters of the development. *)

From Stdlib Require Import QArith Qfield Lqa ZArith Lia Bool List String.
Import ListNotations.

Local Open Scope Q_scope.

(** ** Scalars *)

Definition double : Type := Q.

Module Double.

(** [a <= b] and [a < b] as the booleans a C++ condition evaluates to. *)
Definition leb (a b : double) : bool := Qle_bool a b.
Definition ltb (a b : double) : bool := negb (Qle_bool b a).

End Double.

Infix "<=?" := Double.leb (at level 70, no associativity) : Q_scope.
Infix "<?" := Double.ltb (at level 70, no associativity) : Q_scope.

(** ** btVector3 *)

Record btVector3 : Type := mkVector3 { vx : double; vy : double; vz : double }.

Module Vec.

(** [a - b] *)
Definition sub (a b : btVector3) : btVector3 :=
  mkVector3 (vx a - vx b) (vy a - vy b) (vz a - vz b).

(** [a.dot(b)] *)
Definition dot (a b : btVector3) : double :=
  vx a * vx b + vy a * vy b + vz a * vz b.

(** [v * s] *)
Definition scale (v : btVector3) (s : double) : btVector3 :=
  mkVector3 (vx v * s) (vy v * s) (vz v * s).

(** [-v] *)
Definition neg (v : btVector3) : btVector3 :=
  mkVector3 (- vx v) (- vy v) (- vz v).

(** Component-wise equality of values. *)
Definition eqv (a b : btVector3) : Prop :=
  vx a == vx b /\ vy a == vy b /\ vz a == vz b.

End Vec.

(** ** The physics engine, as the spring sees it *)

(** A [btRigidBody*] handed out by the engine. *)
Definition btRigidBody : Type := nat.

(** The calls the spring makes on a rigid body. *)
Inductive EngineCall : Type :=
| activate (body : btRigidBody)
| applyImpulse (body : btRigidBody) (impulse rel_pos : btVector3).

(** An anchor: a point fixed on a rigid body. *)
Record tgBulletSpringCableAnchor : Type := mkAnchor {
  getWorldPosition : btVector3;
  getRelativePosition : btVector3;
  attachedBody : btRigidBody
}.

(** ** Failures *)

Inductive failure : Type :=
| invalid_argument (what : string)
| runtime_error (what : string)
| assertion_failure (expr : string)
| null_dereference.

(** The outcome of a [const] member function. *)
Inductive result (A : Type) : Type :=
| Ok (a : A)
| Raise (f : failure).
Arguments Ok {A} a.
Arguments Raise {A} f.

Module Res.

Definition bind {A B : Type} (m : result A) (k : A -> result B) : result B :=
  match m with
  | Ok a => k a
  | Raise f => Raise f
  end.

(** [*p] *)
Definition deref {A : Type} (p : option A) : result A :=
  match p with
  | Some a => Ok a
  | None => Raise null_dereference
  end.

(** [assert(c)], [expr] being the text of the condition. *)
Definition assert (c : bool) (expr : string) : result unit :=
  if c then Ok tt else Raise (assertion_failure expr).

End Res.

Declare Scope res_scope.
Delimit Scope res_scope with res.
Notation "x <- m ;; k" := (Res.bind m (fun x => k))
  (at level 61, m at next level, right associativity) : res_scope.
Notation "m ;; k" := (Res.bind m (fun _ => k))
  (at level 61, right associativity) : res_scope.

(** ** The spring *)

(** The members of the base class that the derived class reads or writes. *)
Record tgBulletCompressionSpring : Type := mkBase {
  m_anchors : list (option tgBulletSpringCableAnchor);
  anchor1 : option tgBulletSpringCableAnchor;
  anchor2 : option tgBulletSpringCableAnchor;
  m_isFreeEndAttached : bool;
  m_coefK : double;
  m_coefD : double;
  m_restLength : double;
  m_prevLength : double;
  m_velocity : double;
  m_dampingForce : double
}.

Record tgBulletUnidirectionalCompressionSpring : Type := mkSpring {
  base : tgBulletCompressionSpring;
  m_direction : option btVector3
}.

(** Accessors of the base class. *)
Definition getRestLength (s : tgBulletUnidirectionalCompressionSpring) : double :=
  m_restLength (base s).
Definition getCoefK (s : tgBulletUnidirectionalCompressionSpring) : double :=
  m_coefK (base s).
Definition getCoefD (s : tgBulletUnidirectionalCompressionSpring) : double :=
  m_coefD (base s).
Definition isFreeEndAttached (s : tgBulletUnidirectionalCompressionSpring) : bool :=
  m_isFreeEndAttached (base s).

(** Assignments to the members that [calculateAndApplyForce] writes. *)
Definition set_base (f : tgBulletCompressionSpring -> tgBulletCompressionSpring)
    (s : tgBulletUnidirectionalCompressionSpring) :
    tgBulletUnidirectionalCompressionSpring :=
  mkSpring (f (base s)) (m_direction s).

Definition set_m_velocity (v : double) :=
  set_base (fun b =>
    mkBase (m_anchors b) (anchor1 b) (anchor2 b) (m_isFreeEndAttached b)
           (m_coefK b) (m_coefD b) (m_restLength b)
           (m_prevLength b) v (m_dampingForce b)).

Definition set_m_dampingForce (f : double) :=
  set_base (fun b =>
    mkBase (m_anchors b) (anchor1 b) (anchor2 b) (m_isFreeEndAttached b)
           (m_coefK b) (m_coefD b) (m_restLength b)
           (m_prevLength b) (m_velocity b) f).

Definition set_m_prevLength (l : double) :=
  set_base (fun b =>
    mkBase (m_anchors b) (anchor1 b) (anchor2 b) (m_isFreeEndAttached b)
           (m_coefK b) (m_coefD b) (m_restLength b)
           l (m_velocity b) (m_dampingForce b)).

(** Between two steps the engine integrates the bodies: the anchor objects
    the spring points to report new positions.  [f] is what happens to each
    anchor object; the pointers themselves, and every other member, stay. *)
Definition move_anchors
    (f : tgBulletSpringCableAnchor -> tgBulletSpringCableAnchor) :=
  set_base (fun b =>
    mkBase (List.map (option_map f) (m_anchors b))
           (option_map f (anchor1 b)) (option_map f (anchor2 b))
           (m_isFreeEndAttached b)
           (m_coefK b) (m_coefD b) (m_restLength b)
           (m_prevLength b) (m_velocity b) (m_dampingForce b)).

(** [p != NULL] *)
Definition not_null {A : Type} (p : option A) : bool :=
  match p with
  | Some _ => true
  | None => false
  end.

(** [invariant()] *)
Definition invariant (s : tgBulletUnidirectionalCompressionSpring) : bool :=
  (0 <? m_coefK (base s)) &&
  (0 <=? m_coefD (base s)) &&
  (0 <=? m_prevLength (base s)) &&
  (0 <=? m_restLength (base s)) &&
  not_null (anchor1 (base s)) &&
  not_null (anchor2 (base s)) &&
  not_null (m_direction s) &&
  (2 <=? List.length (m_anchors (base s)))%nat.

(** [getCurrentAnchorDistanceAlongDirection()].  The source does not define
    it as written: the definition lacks the class qualifier (it is a free
    function marked [virtual] and [const], in which [anchor1], [anchor2] and
    [m_direction] are not in scope) and it multiplies [dist] by the pointer
    [m_direction].  It is read here as what its comment says it is, a member
    function that dots the vector from anchor1 to anchor2 with the direction
    the pointer refers to.  No function of the class calls it; it only
    serves to say what the distance along the direction of a spring is. *)
Definition getCurrentAnchorDistanceAlongDirection
    (s : tgBulletUnidirectionalCompressionSpring) : result double :=
  (a2 <- Res.deref (anchor2 (base s)) ;;
   a1 <- Res.deref (anchor1 (base s)) ;;
   let dist := Vec.sub (getWorldPosition a2) (getWorldPosition a1) in
   direction <- Res.deref (m_direction s) ;;
   let currAnchDistAlongDir := Vec.dot dist direction in
   Ok currAnchDistAlongDir)%res.

(** ** Member functions that change the spring or call the engine *)

(** What a mutating member function works on: the spring itself and the log
    of the calls made on the rigid bodies so far. *)
Record Sim : Type := mkSim {
  spring : tgBulletUnidirectionalCompressionSpring;
  engine : list EngineCall
}.

(** A mutating member function. The state it leaves is returned in either
    case: an exception does not undo the writes made before it. *)
Definition M (A : Type) : Type := Sim -> result A * Sim.

Definition ret {A : Type} (a : A) : M A := fun st => (Ok a, st).

Definition bind {A B : Type} (m : M A) (k : A -> M B) : M B :=
  fun st =>
    match m st with
    | (Ok a, st') => k a st'
    | (Raise f, st') => (Raise f, st')
    end.

(** [throw f] *)
Definition throw {A : Type} (f : failure) : M A := fun st => (Raise f, st).

(** A [const] member function called on [this]. *)
Definition call {A : Type}
    (f : tgBulletUnidirectionalCompressionSpring -> result A) : M A :=
  fun st => (f (spring st), st).

(** Reading [this]. *)
Definition read {A : Type}
    (f : tgBulletUnidirectionalCompressionSpring -> A) : M A :=
  fun st => (Ok (f (spring st)), st).

(** Writing a member of [this]. *)
Definition write
    (f : tgBulletUnidirectionalCompressionSpring ->
         tgBulletUnidirectionalCompressionSpring) : M unit :=
  fun st => (Ok tt, mkSim (f (spring st)) (engine st)).

(** A call on a rigid body. *)
Definition engine_call (c : EngineCall) : M unit :=
  fun st => (Ok tt, mkSim (spring st) (engine st ++ [c])).

Declare Scope mut_scope.
Delimit Scope mut_scope with mut.
Notation "x <- m ;; k" := (bind m (fun x => k))
  (at level 61, m at next level, right associativity) : mut_scope.
Notation "m ;; k" := (bind m (fun _ => k))
  (at level 61, right associativity) : mut_scope.

(** The text of the [std::runtime_error] of [step]. *)
Definition negative_length_message : string :=
  "Compression spring has negative length, simulation stopping. Increase your stiffness coefficient.".

Section DerivedClass.

(** The geometric queries inherited from [tgBulletCompressionSpring]: what
    the base class computes from [this->anchor1] and [this->anchor2], the two
    anchors being all it reads of the spring.  The base class dereferences
    both pointers, so what a query gives on a null anchor stands for no
    behaviour of the program; the class invariant excludes that case, and no
    statement below depends on the value there. *)
Variable getCurrentAnchorDistance :
  option tgBulletSpringCableAnchor -> option tgBulletSpringCableAnchor -> double.
Variable getAnchorDirectionUnitVector :
  option tgBulletSpringCableAnchor -> option tgBulletSpringCableAnchor ->
  btVector3.

(** [getCurrentSpringLength()] *)
Definition getCurrentSpringLength
    (s : tgBulletUnidirectionalCompressionSpring) : double :=
  let springLength := getRestLength s in
  let currAnchorDist :=
    getCurrentAnchorDistance (anchor1 (base s)) (anchor2 (base s)) in
  if isFreeEndAttached s then currAnchorDist
  else if currAnchorDist <? getRestLength s then currAnchorDist
  else springLength.

(** [getSpringForce()] *)
Definition getSpringForce
    (s : tgBulletUnidirectionalCompressionSpring) : result double :=
  let springForce :=
    (- getCoefK s) * (getCurrentSpringLength s - getRestLength s) in
  ((if negb (isFreeEndAttached s)
    then Res.assert (0 <=? springForce) "springForce >= 0.0"
    else Ok tt) ;;
   Ok springForce)%res.

(** [calculateAndApplyForce(dt)] *)
Definition calculateAndApplyForce (dt : double) : M unit :=
  (let force := mkVector3 0 0 0 in
   magnitude <- call getSpringForce ;;
   currLength <- read getCurrentSpringLength ;;
   unitVector <- read (fun this =>
     getAnchorDirectionUnitVector (anchor1 (base this)) (anchor2 (base this))) ;;
   m_prevLength_ <- read (fun this => m_prevLength (base this)) ;;
   let changeInDeltaX := currLength - m_prevLength_ in
   write (set_m_velocity (changeInDeltaX / dt)) ;;
   m_velocity_ <- read (fun this => m_velocity (base this)) ;;
   coefD <- read getCoefD ;;
   write (set_m_dampingForce ((- coefD) * m_velocity_)) ;;
   m_dampingForce_ <- read (fun this => m_dampingForce (base this)) ;;
   let magnitude := magnitude + m_dampingForce_ in
   let force := Vec.scale unitVector magnitude in
   write (set_m_prevLength currLength) ;;
   a1 <- call (fun this => Res.deref (anchor1 (base this))) ;;
   let point1 := getRelativePosition a1 in
   engine_call (activate (attachedBody a1)) ;;
   engine_call (applyImpulse (attachedBody a1) (Vec.scale force dt) point1) ;;
   a2 <- call (fun this => Res.deref (anchor2 (base this))) ;;
   let point2 := getRelativePosition a2 in
   engine_call (activate (attachedBody a2)) ;;
   engine_call
     (applyImpulse (attachedBody a2) (Vec.scale (Vec.neg force) dt) point2))%mut.

(** [step(dt)] *)
Definition step (dt : double) : M unit :=
  ((if dt <=? 0
    then throw (invalid_argument "dt is not positive!")
    else ret tt) ;;
   calculateAndApplyForce dt ;;
   length <- read getCurrentSpringLength ;;
   (if length <=? 0
    then throw (runtime_error negative_length_message)
    else ret tt) ;;
   call (fun this => Res.assert (invariant this) "invariant()"))%mut.

(** The constructor of the base class. *)
Variable tgBulletCompressionSpring_ctor :
  list (option tgBulletSpringCableAnchor) -> bool -> double -> double ->
  double -> result tgBulletCompressionSpring.

(** The constructor.  The diagnostic line it prints is not modelled, but the
    reads of [m_direction->x()], [y()] and [z()] it makes are. *)
Definition new_tgBulletUnidirectionalCompressionSpring
    (anchors : list (option tgBulletSpringCableAnchor))
    (isFreeEndAttached : bool) (coefK coefD restLength : double)
    (direction : option btVector3) :
    result tgBulletUnidirectionalCompressionSpring :=
  (b <- tgBulletCompressionSpring_ctor
          anchors isFreeEndAttached coefK coefD restLength ;;
   let this := mkSpring b direction in
   _ <- Res.deref (m_direction this) ;;
   Res.assert (invariant this) "invariant()" ;;
   Ok this)%res.

(** [r] is the [std::runtime_error] of [step]: the fatal-length condition. *)
Definition fatal_length {A : Type} (r : result A) : bool :=
  match r with
  | Raise (runtime_error _) => true
  | _ => false
  end.

(** The states a spring goes through: it is constructed, the engine moves its
    anchors, and [step] is called on it; a [step] that ends in the
    fatal-length condition ends the simulation. *)
Inductive reachable : Sim -> Prop :=
| reach_new anchors isFreeEndAttached coefK coefD restLength direction this calls :
    new_tgBulletUnidirectionalCompressionSpring
      anchors isFreeEndAttached coefK coefD restLength direction = Ok this ->
    reachable (mkSim this calls)
| reach_engine f st :
    reachable st ->
    reachable (mkSim (move_anchors f (spring st)) (engine st))
| reach_step dt st :
    reachable st ->
    fatal_length (fst (step dt st)) = false ->
    reachable (snd (step dt st)).

End DerivedClass.

(** ** An instance of the base class *)

Module StraightLine.

(** The square root of a rational that is the square of a rational. *)
Definition sqrt (q : Q) : Q :=
  let r := Qred q in Z.sqrt (Qnum r) # Pos.sqrt (Qden r).

(** [v.length()], exact whenever the length is rational. *)
Definition length (v : btVector3) : double := sqrt (Vec.dot v v).

(** Modelled from the spec: [getCurrentAnchorDistance()] of the base class
    [tgBulletCompressionSpring], which is not among the sources; the spec has
    the base class compute a scalar distance between the two anchors, here
    the length of the vector from anchor1 to anchor2.  The value on a null
    anchor is a placeholder that nothing uses. *)
Definition getCurrentAnchorDistance
    (anchor1 anchor2 : option tgBulletSpringCableAnchor) : double :=
  match anchor1, anchor2 with
  | Some a1, Some a2 =>
      length (Vec.sub (getWorldPosition a2) (getWorldPosition a1))
  | _, _ => 0
  end.

(** Modelled from the spec: [getAnchorDirectionUnitVector()] of the base
    class, which is not among the sources; the unit vector from anchor1 to
    anchor2 in world space.  The value on a null anchor is a placeholder that
    nothing uses, and so is the value for two anchors at the same point,
    where the source divides by zero (the inverse of 0 is 0 in [Q]). *)
Definition getAnchorDirectionUnitVector
    (anchor1 anchor2 : option tgBulletSpringCableAnchor) : btVector3 :=
  match anchor1, anchor2 with
  | Some a1, Some a2 =>
      let dist := Vec.sub (getWorldPosition a2) (getWorldPosition a1) in
      Vec.scale dist (/ length dist)
  | _, _ => mkVector3 0 0 0
  end.

(** Modelled from the spec: the constructor of the base class, which is not
    among the sources.  It needs at least two anchors, of which the first two
    bound the spring; the previous length starts at the rest length and the
    transient scalars at zero. *)
Definition tgBulletCompressionSpring_ctor
    (anchors : list (option tgBulletSpringCableAnchor))
    (isFreeEndAttached : bool) (coefK coefD restLength : double) :
    result tgBulletCompressionSpring :=
  match anchors with
  | a1 :: a2 :: _ =>
      Ok (mkBase anchors a1 a2 isFreeEndAttached coefK coefD restLength
                 restLength 0 0)
  | _ => Raise (assertion_failure "m_anchors.size() >= 2")
  end.

End StraightLine.

(** ** Scenarios *)

Module Scenario.

(** Two anchors on bodies 1 and 2, the first at the origin and the second at
    [p]. *)
Definition anchor_at (body : btRigidBody) (p : btVector3) :
    tgBulletSpringCableAnchor :=
  mkAnchor p (mkVector3 0 0 0) body.

Definition origin : btVector3 := mkVector3 0 0 0.
Definition up : btVector3 := mkVector3 0 1 0.
Definition down : btVector3 := mkVector3 0 (-1) 0.

(** A spring with stiffness 100 and rest length 1 whose second anchor is at
    [p], with damping [d] and previous length [prev]. *)
Definition spring_with (attached : bool) (d prev : double) (p : btVector3)
    (direction : btVector3) : tgBulletUnidirectionalCompressionSpring :=
  let a1 := Some (anchor_at 1%nat origin) in
  let a2 := Some (anchor_at 2%nat p) in
  mkSpring (mkBase [a1; a2] a1 a2 attached 100 d 1 prev 0 0) (Some direction).

(** The engine puts the second anchor (the one on body 2) at [p]. *)
Definition put_second_at (p : btVector3) (a : tgBulletSpringCableAnchor) :
    tgBulletSpringCableAnchor :=
  if Nat.eqb (attachedBody a) 2%nat
  then mkAnchor p (getRelativePosition a) (attachedBody a)
  else a.

(** The spring under the queries of [StraightLine]. *)
Definition length_of : tgBulletUnidirectionalCompressionSpring -> double :=
  getCurrentSpringLength StraightLine.getCurrentAnchorDistance.
Definition force_of : tgBulletUnidirectionalCompressionSpring -> result double :=
  getSpringForce StraightLine.getCurrentAnchorDistance.
Definition apply_force : double -> M unit :=
  calculateAndApplyForce StraightLine.getCurrentAnchorDistance
                         StraightLine.getAnchorDirectionUnitVector.
Definition do_step : double -> M unit :=
  step StraightLine.getCurrentAnchorDistance
       StraightLine.getAnchorDirectionUnitVector.

(** The springs of the scenarios: stiffness 100, rest length 1, direction up,
    the second anchor on the vertical axis. *)
Definition compressed : tgBulletUnidirectionalCompressionSpring :=
  spring_with false 0 1 (mkVector3 0 0.8 0) up.
Definition slack : tgBulletUnidirectionalCompressionSpring :=
  spring_with false 0 1 (mkVector3 0 1.5 0) up.
Definition extended : tgBulletUnidirectionalCompressionSpring :=
  spring_with true 0 1 (mkVector3 0 1.5 0) up.

(** An attached spring whose anchors are not in line with its direction. *)
Definition oblique (direction : btVector3) :
    tgBulletUnidirectionalCompressionSpring :=
  spring_with true 0 1 (mkVector3 3 4 0) direction.

(** A detached spring whose second anchor is 0.8 up and 0.6 aside: 0.8 along
    its direction, 1 in a straight line. *)
Definition leaning : tgBulletUnidirectionalCompressionSpring :=
  spring_with false 0 1 (mkVector3 0.6 0.8 0) up.

(** A damped spring (damping 5) as the constructor leaves it, the second
    anchor at 0.8; the time step; the state after one step; the state after
    the engine has then moved the second anchor to 0.7. *)
Definition dt : double := 0.01.
Definition damped : Sim :=
  mkSim (spring_with false 5 1 (mkVector3 0 0.8 0) up) [].
Definition stepped : Sim := snd (do_step dt damped).
Definition closing : Sim :=
  mkSim (move_anchors (put_second_at (mkVector3 0 0.7 0)) (spring stepped))
        (engine stepped).

(** A damped spring whose two anchors coincide. *)
Definition collapsed : Sim :=
  mkSim (spring_with false 5 1 origin up) [].


(** A detached spring of rest length 0 whose anchors are 0.8 apart. *)
Definition restless : Sim :=
  let a1 := Some (anchor_at 1%nat origin) in
  let a2 := Some (anchor_at 2%nat (mkVector3 0 0.8 0)) in
  mkSim (mkSpring (mkBase [a1; a2] a1 a2 false 100 5 0 0 0 0) (Some up)) [].


(** A detached spring of negative stiffness, compressed to 0.8: a state the
    class invariant excludes. *)
Definition negative_stiffness : Sim :=
  let a1 := Some (anchor_at 1%nat origin) in
  let a2 := Some (anchor_at 2%nat (mkVector3 0 0.8 0)) in
  mkSim (mkSpring (mkBase [a1; a2] a1 a2 false (-100) 5 1 1 0 0) (Some up)) [].

(** A damped detached spring that was at 0.8 and whose second anchor is now
    at 0.9. *)
Definition opening : Sim :=
  mkSim (spring_with false 5 0.8 (mkVector3 0 0.9 0) up) [].

(** A detached spring at rest, its anchors 1.5 apart. *)
Definition resting : Sim :=
  mkSim (spring_with false 5 1 (mkVector3 0 1.5 0) up) [].

End Scenario.

(** * PrismModel: the builders of the structure

    [src/dev/mhoaglan/payload_thruster/PrismModel.cpp] fills a [tgStructure]
    with nodes and with pairs of node indices.  [tgStructure] is not among
    the sources: a structure is the sequence of the calls made on it, its
    nodes being numbered from 0 in the order of the [addNode] calls.  An
    [int] is an integer: the sums and products of the source are those of
    [Z] as long as they stay between [INT_MIN] and [INT_MAX] (beyond, the
    behaviour of the source is undefined), so a statement about arbitrary
    arguments assumes that they do.  An [int&] parameter is returned beside
    the structure.  The functions
    of [<math.h>] are parameters; the lines written to [std::cout] are not
    modelled. *)

Module PrismModel.

Local Open Scope Z_scope.

(** The calls the builders make on a [tgStructure]. *)
Inductive StructureCall : Type :=
| addNode (x y z : double)
| addPair (fromNodeIdx toNodeIdx : Z) (tags : string)
| addRotation (fixedPoint axis : btVector3) (angle : double)
| move (offset : btVector3).

Definition tgStructure : Type := list StructureCall.

(** [for (int i = from; i < to; i++) body], the bounds being fixed during the
    loop. *)
Fixpoint iterate (n : nat) (i : Z) (body : Z -> tgStructure -> tgStructure)
    (s : tgStructure) : tgStructure :=
  match n with
  | O => s
  | S n' => iterate n' (i + 1) body (body i s)
  end.

Definition for_loop (from to : Z) (body : Z -> tgStructure -> tgStructure)
    (s : tgStructure) : tgStructure :=
  iterate (Z.to_nat (to - from)) from body s.

(** The bounds of an [int], of 32 bits. *)
Definition INT_MAX : Z := 2147483647.
Definition INT_MIN : Z := - INT_MAX - 1.

(** [#define PI 3.14159265], and [M_PI] of [<math.h>]. *)
Definition PI : double := 3.14159265%Q.
Definition M_PI : double := 3.14159265358979323846%Q.

(** [sf] and [c.rod_length] of the configuration. *)
Definition sf : double := 1%Q.
Definition rod_length : double := (16.84 * sf)%Q.

Section Builders.

Variable cos sin asin sqrt : double -> double.
Variable pow : double -> double -> double.

(** [addRing] *)
Definition addRing (s : tgStructure) (radius : double) (nPts : Z)
    (pointOffset : Z) : tgStructure * Z :=
  let s :=
    for_loop 0 nPts
      (fun i s =>
         s ++ [addNode
                 (radius * cos (inject_Z (i * 2) * PI / inject_Z nPts))%Q
                 (radius * sin (inject_Z (i * 2) * PI / inject_Z nPts))%Q
                 0%Q])
      s in
  let s :=
    for_loop pointOffset (pointOffset + nPts)
      (fun i s =>
         if i =? pointOffset + nPts - 1
         then s ++ [addPair i pointOffset "gimbal"]
         else s ++ [addPair i (i + 1) "gimbal"])
      s in
  (s, pointOffset + nPts).

(** [addBottomStructure] *)
Definition addBottomStructure (s : tgStructure)
    (extRadius payLength tankToOuterRing : double) (pointOffset : Z) :
    tgStructure * Z :=
  (s ++ [addNode 0%Q (- extRadius - tankToOuterRing)%Q 0%Q;
         addNode 0%Q (- extRadius - payLength - tankToOuterRing)%Q 0%Q;
         addPair pointOffset (pointOffset + 1) "tank"],
   pointOffset + 2).

(** [makeLinks] *)
Definition makeLinks (s : tgStructure)
    (extRadius intRadius tankToOuterRing tankRadius : double)
    (pointOffset1 pointOffset2 baseStartLink gimbalStart : Z) :
    tgStructure * Z :=
  let offsetInt := ((extRadius - intRadius) / 2.2)%Q in
  let offsetOut := (tankToOuterRing / 2.2)%Q in
  (s ++ [addNode (extRadius - offsetInt)%Q 0%Q 0%Q;
         addNode (intRadius + offsetInt)%Q 0%Q 0%Q;
         addNode 0%Q (- extRadius - offsetOut)%Q 0%Q;
         addNode 0%Q (- extRadius - tankToOuterRing + offsetOut)%Q 0%Q;
         addPair gimbalStart pointOffset2 "link";
         addPair (gimbalStart + pointOffset1) (pointOffset2 + 1) "link";
         addPair (gimbalStart + Z.quot (3 * pointOffset1) 4)
                 (pointOffset2 + 2) "link";
         addPair (pointOffset2 + 3) baseStartLink "link"],
   pointOffset2 + 4).

(** [addThruster] *)
Definition addThruster (s : tgStructure) (nExt globalOffset gimbalStart : Z) :
    tgStructure * Z :=
  (s ++ [addNode 0%Q 0%Q (- 0.5)%Q;
         addNode 0%Q 0%Q 0%Q;
         addNode 0%Q 0%Q 0.5%Q;
         addPair globalOffset (globalOffset + 1) "thruster";
         addPair (globalOffset + 1) (globalOffset + 2) "thruster";
         addPair (globalOffset + 1) (gimbalStart + nExt) "link"],
   globalOffset + 3).

(** [addStrings] *)
Definition addStrings (s : tgStructure) (baseStartLink nPtBeforeRobot : Z) :
    tgStructure :=
  s ++ [addPair (0 + nPtBeforeRobot) (baseStartLink + 1) "muscle";
        addPair (4 + nPtBeforeRobot) (baseStartLink + 1) "muscle";
        addPair (8 + nPtBeforeRobot) (baseStartLink + 1) "muscle";
        addPair (3 + nPtBeforeRobot) baseStartLink "muscle";
        addPair (7 + nPtBeforeRobot) baseStartLink "muscle";
        addPair (11 + nPtBeforeRobot) baseStartLink "muscle"].

(** [addNodes] *)
Definition addNodes (s : tgStructure) (offset : Z) (tankToOuterRing : double) :
    tgStructure :=
  (let L := rod_length in
   let t := 1.2213 * L / 1.9912 in
   let r := t / (2 * sin (36 * M_PI / 180)) in
   let theta := asin (r / t) * 180 / M_PI in
   let m := sqrt (pow t 2 + pow (2 * t * sin (54 * M_PI / 180)) 2) in
   let var := m - t * cos (theta * M_PI / 180) in
   s ++
   [addNode 0 (- m / 2 - tankToOuterRing) 0;
    addNode 0 (var * sf - m / 2 - tankToOuterRing) (r * sf);
    addNode 0 (t * cos (theta * M_PI / 180) * sf - m / 2 - tankToOuterRing)
            (- r * sf);
    addNode 0 (m * sf - m / 2 - tankToOuterRing) (0 * sf);
    addNode (- r * cos (18 * M_PI / 180) * sf)
            (t * cos (theta * M_PI / 180) * sf - m / 2 - tankToOuterRing)
            (- r * sin (18 * M_PI / 180) * sf);
    addNode (r * cos (18 * M_PI / 180) * sf)
            (t * cos (theta * M_PI / 180) * sf - m / 2 - tankToOuterRing)
            (- r * sin (18 * M_PI / 180) * sf);
    addNode (- r * cos (18 * M_PI / 180) * sf)
            (var * sf - m / 2 - tankToOuterRing)
            (r * sin (18 * M_PI / 180) * sf);
    addNode (r * cos (18 * M_PI / 180) * sf)
            (var * sf - m / 2 - tankToOuterRing)
            (r * sin (18 * M_PI / 180) * sf);
    addNode (- r * sin (36 * M_PI / 180) * sf)
            (t * cos (theta * M_PI / 180) * sf - m / 2 - tankToOuterRing)
            (r * cos (36 * M_PI / 180) * sf);
    addNode (- r * sin (36 * M_PI / 180) * sf)
            (var * sf - m / 2 - tankToOuterRing)
            (- r * cos (36 * M_PI / 180) * sf);
    addNode (r * sin (36 * M_PI / 180) * sf)
            (t * cos (theta * M_PI / 180) * sf - m / 2 - tankToOuterRing)
            (r * cos (36 * M_PI / 180) * sf);
    addNode (r * sin (36 * M_PI / 180) * sf)
            (var * sf - m / 2 - tankToOuterRing)
            (- r * cos (36 * M_PI / 180) * sf)])%Q.

(** [addRods] *)
Definition addRods (s : tgStructure) (offset : Z) : tgStructure :=
  s ++ [addPair (0 + offset) (1 + offset) "rod";
        addPair (2 + offset) (3 + offset) "rod";
        addPair (4 + offset) (5 + offset) "rod";
        addPair (6 + offset) (7 + offset) "rod";
        addPair (8 + offset) (9 + offset) "rod";
        addPair (10 + offset) (11 + offset) "rod"].

(** [addActuators] *)
Definition addActuators (s : tgStructure) (offset : Z) : tgStructure :=
  s ++ [addPair (0 + offset) (4 + offset) "muscle";
        addPair (0 + offset) (5 + offset) "muscle";
        addPair (0 + offset) (8 + offset) "muscle";
        addPair (0 + offset) (10 + offset) "muscle";
        addPair (1 + offset) (8 + offset) "muscle";
        addPair (1 + offset) (10 + offset) "muscle";
        addPair (1 + offset) (6 + offset) "muscle";
        addPair (1 + offset) (7 + offset) "muscle";
        addPair (2 + offset) (4 + offset) "muscle";
        addPair (2 + offset) (5 + offset) "muscle";
        addPair (2 + offset) (9 + offset) "muscle";
        addPair (2 + offset) (11 + offset) "muscle";
        addPair (3 + offset) (6 + offset) "muscle";
        addPair (3 + offset) (7 + offset) "muscle";
        addPair (3 + offset) (9 + offset) "muscle";
        addPair (3 + offset) (11 + offset) "muscle";
        addPair (4 + offset) (8 + offset) "muscle";
        addPair (4 + offset) (9 + offset) "muscle";
        addPair (5 + offset) (10 + offset) "muscle";
        addPair (5 + offset) (11 + offset) "muscle";
        addPair (6 + offset) (8 + offset) "muscle";
        addPair (6 + offset) (9 + offset) "muscle";
        addPair (7 + offset) (10 + offset) "muscle";
        addPair (7 + offset) (11 + offset) "muscle"].

(** [addRobot] *)
Definition addRobot (s : tgStructure) (offset : Z) (tankToOuterRing : double) :
    tgStructure * Z :=
  let s := addNodes s offset tankToOuterRing in
  let s := addRods s offset in
  let s := addActuators s offset in
  (s, offset + 12).

(** What [setup] leaves in its local variables once the structure is
    filled. *)
Record Built : Type := mkBuilt {
  structure : tgStructure;
  globalOffset : Z;
  beforeRobot : Z;
  gimbalStart : Z;
  baseStartLink : Z;
  hingeStart : Z;
  thrusterNode : Z
}.

(** The statements of [setup] that fill the [tgStructure], from its
    declaration to [s.move]; what [setup] does next with the build
    specification, the hinges and the physics world is not modelled. *)
Definition setup_structure : Built :=
  let tankRadius := 1.0%Q in
  let s : tgStructure := [] in
  let nPtsExtRing := 48 in
  let nPtsIntRing := 48 in
  let internalRadius := 0.6%Q in
  let externalRadius := 1.0%Q in
  let tankToOuterRing := 1.0%Q in
  let payloadLength := 1%Q in
  let globalOffset := 0 in
  let beforeRobot := globalOffset in
  let '(s, globalOffset) :=
    addRobot s globalOffset (tankToOuterRing + externalRadius)%Q in
  let gimbalStart := globalOffset in
  let '(s, globalOffset) := addRing s externalRadius nPtsExtRing globalOffset in
  let '(s, globalOffset) := addRing s internalRadius nPtsIntRing globalOffset in
  let baseStartLink := globalOffset in
  let '(s, globalOffset) :=
    addBottomStructure s externalRadius payloadLength tankToOuterRing
                       globalOffset in
  let hingeStart := globalOffset in
  let '(s, globalOffset) :=
    makeLinks s externalRadius internalRadius tankToOuterRing tankRadius
              nPtsExtRing globalOffset baseStartLink gimbalStart in
  let thrusterNode := globalOffset in
  let '(s, globalOffset) :=
    addThruster s nPtsExtRing globalOffset gimbalStart in
  let s := addStrings s baseStartLink beforeRobot in
  let s := s ++ [addRotation (mkVector3 0 0 0) (mkVector3 0 0 1) M_PI%Q]%Q in
  let s := s ++ [move (mkVector3 0 (rod_length / 1.5) 0)%Q] in
  mkBuilt s globalOffset beforeRobot gimbalStart baseStartLink hingeStart
          thrusterNode.

End Builders.

(** ** What a well-built structure is *)

(** The number of nodes of a structure. *)
Fixpoint node_count (s : tgStructure) : Z :=
  match s with
  | [] => 0
  | addNode _ _ _ :: rest => 1 + node_count rest
  | _ :: rest => node_count rest
  end.

(** The pairs of a structure, in the order they were added. *)
Fixpoint pairs (s : tgStructure) : list (Z * Z * string) :=
  match s with
  | [] => []
  | addPair i j tags :: rest => (i, j, tags) :: pairs rest
  | _ :: rest => pairs rest
  end.

(** Every [addPair] names two nodes that exist when it is called, [n] nodes
    existing at the start. *)
Fixpoint pairs_in_range (n : Z) (s : tgStructure) : bool :=
  match s with
  | [] => true
  | addNode _ _ _ :: rest => pairs_in_range (n + 1) rest
  | addPair i j _ :: rest =>
      (0 <=? i) && (i <? n) && (0 <=? j) && (j <? n) && pairs_in_range n rest
  | _ :: rest => pairs_in_range n rest
  end.

(** The number of pairs with the tag [tags] that end at node [i]. *)
Definition degree (tags : string) (i : Z) (s : tgStructure) : nat :=
  List.length
    (List.filter
       (fun p : Z * Z * string =>
          let '(a, b, t) := p in
          String.eqb t tags && ((a =? i) || (b =? i)))
       (pairs s)).

(** The integers [i], [i + 1], ..., [i + n - 1]. *)
Fixpoint zseq (i : Z) (n : nat) : list Z :=
  match n with
  | O => []
  | S n' => i :: zseq (i + 1) n'
  end.

(** Two pairs join the same two nodes. *)
Definition same_ends (p q : Z * Z * string) : bool :=
  let '(a, b, _) := p in
  let '(c, d, _) := q in
  ((a =? c) && (b =? d)) || ((a =? d) && (b =? c)).

(** No pair joins a node to itself and no two pairs join the same two
    nodes. *)
Fixpoint simple_pairs (ps : list (Z * Z * string)) : bool :=
  match ps with
  | [] => true
  | p :: rest =>
      let '(a, b, _) := p in
      negb (a =? b) && negb (List.existsb (same_ends p) rest) &&
      simple_pairs rest
  end.

(** Node positions play no part in the numbering of the nodes: where a
    scenario needs the functions of [<math.h>], it takes them constant. *)
Definition flat (x : double) : double := 0%Q.
Definition flat2 (x y : double) : double := 0%Q.


End PrismModel.


(** * v4TensionController

    [src/dev/ezhu/DropComparison/v4TensionController.cpp]: an observer that
    keeps the simulated time and prints, at every step, the time and the
    centre of mass of the end effector.  Of the model it observes, the
    controller only uses the rods that [find<tgRod>("endeffector")] returns.
    A line written to [std::cout] is the four numbers it shows; their
    formatting is not modelled. *)

Module v4TensionController.

(** A [tgRod], as the controller sees it. *)
Record tgRod : Type := mkRod { centerOfMass : btVector3 }.

(** A [v4Model], as the controller sees it. *)
Record v4Model : Type := mkModel { find_endeffector : list tgRod }.

(** The members the functions of the file read or write. *)
Record controller : Type := mkController {
  m_initialLengths : double;
  m_totalTime : double;
  initPos : btVector3
}.

(** A line of [onStep]: the total time and the three coordinates. *)
Record Line : Type := mkLine {
  line_time : double;
  line_x : double;
  line_y : double;
  line_z : double
}.

(** The controller and what it has printed. *)
Record World : Type := mkWorld {
  self : controller;
  cout : list Line
}.

(** The constructor; it does not use [timestep] and [goalTrajectory]. *)
Definition new (initialLength timestep : double) (goalTrajectory : btVector3) :
    controller :=
  mkController initialLength 0 (mkVector3 0 0 0).

(** [endEffectorCOM] *)
Definition endEffectorCOM (subject : v4Model) : result btVector3 :=
  let endEffector := find_endeffector subject in
  (Res.assert (negb (match endEffector with [] => true | _ => false end))
              "!endEffector.empty()" ;;
   rod <- Res.deref (List.hd_error endEffector) ;;
   Ok (centerOfMass rod))%res.

(** [onSetup] *)
Definition onSetup (subject : v4Model) (w : World) : result unit * World :=
  match endEffectorCOM subject with
  | Raise f => (Raise f, w)
  | Ok com =>
      let this := self w in
      let this := mkController (m_initialLengths this) (m_totalTime this) com in
      let this := mkController (m_initialLengths this) 0 (initPos this) in
      (Ok tt, mkWorld this (cout w))
  end.

(** [onStep] *)
Definition onStep (subject : v4Model) (dt : double) (w : World) :
    result unit * World :=
  if dt <=? 0 then (Raise (invalid_argument "dt is not positive"), w)
  else
    let this := self w in
    let this :=
      mkController (m_initialLengths this) (m_totalTime this + dt)
                   (initPos this) in
    let w := mkWorld this (cout w) in
    match endEffectorCOM subject with
    | Raise f => (Raise f, w)
    | Ok ee =>
        (Ok tt,
         mkWorld this
           (cout w ++ [mkLine (m_totalTime this) (vx ee) (vy ee) (vz ee)]))
    end.

(** The steps of a run: the observed model notifies the controller once per
    tick, with the model as it is then and the time step, until a call
    fails. *)
Fixpoint onSteps (ticks : list (v4Model * double)) (w : World) :
    result unit * World :=
  match ticks with
  | [] => (Ok tt, w)
  | (subject, dt) :: rest =>
      match onStep subject dt w with
      | (Ok _, w') => onSteps rest w'
      | (Raise f, w') => (Raise f, w')
      end
  end.

(** The lines a run prints from the time [t]: the running total of the time
    steps, with the centre of mass of the first end-effector rod. *)
Fixpoint lines_from (t : double) (ticks : list (v4Model * double)) : list Line :=
  match ticks with
  | [] => []
  | (subject, dt) :: rest =>
      match find_endeffector subject with
      | rod :: _ =>
          mkLine (t + dt) (vx (centerOfMass rod)) (vy (centerOfMass rod))
                 (vz (centerOfMass rod))
          :: lines_from (t + dt) rest
      | [] => []
      end
  end.

(** A tick the controller accepts: a positive time step and a model with an
    end effector. *)
Definition accepted (tick : v4Model * double) : Prop :=
  0 < snd tick /\ find_endeffector (fst tick) <> [].

(** A model whose end effector is at [p], and three ticks of a run. *)
Definition model_at (p : btVector3) : v4Model := mkModel [mkRod p].
Definition three_ticks : list (v4Model * double) :=
  [(model_at (mkVector3 0 10 0), 0.001);
   (model_at (mkVector3 0 9.5 0), 0.001);
   (model_at (mkVector3 0 9 0), 0.002)].
Definition fresh : World := mkWorld (new 5 0.001 (mkVector3 0 0 0)) [].

End v4TensionController.


(** * AppPrismModel: the entry point

    [src/dev/mhoaglan/payload_thruster/AppPrismModel.cpp].  What [main] does
    to the outside is a sequence of events: the lines it prints, the file it
    opens, and the simulation it runs once the ground is imported from that
    file (the world, the view, the model and its controller are built by
    code that is not among the sources).  Whether a file opens is a
    parameter. *)

Module AppPrismModel.

Inductive Event : Type :=
| cout (line : string)
| open_file (name : string)
| run_simulation (ground_file : string) (steps : Z).

(** How the program ends: [return code] from [main], or [exit(code)]. *)
Inductive Status : Type :=
| returned (code : Z)
| exited (code : Z).

Definition EXIT_FAILURE : Z := 1.

(** [filename_in.find(".txt") == std::string::npos] *)
Definition not_found (pattern s : string) : bool :=
  match String.index 0 pattern s with
  | None => true
  | Some _ => false
  end.

(** [main]; [argv[1]] of a program started without argument is the null
    pointer. *)
Definition main (argv : list string) (is_open : string -> bool) :
    list Event * result Status :=
  let out := [cout "**--** Test Hinge Julien Despois **--**"] in
  match List.nth_error argv 1 with
  | None => (out, Raise null_dereference)
  | Some filename_in =>
      if not_found ".txt" filename_in
      then
        (out ++
         [cout "Incorrect filetype, input file should be a .txt file"],
         Ok (exited EXIT_FAILURE))
      else
        let out := out ++ [open_file filename_in] in
        if negb (is_open filename_in)
        then
          (out ++ [cout "Failed to open input file"],
           Ok (exited EXIT_FAILURE))
        else
          (out ++ [cout "Input file opened successfully";
                   run_simulation filename_in 35000],
           Ok (returned 0))
  end.

(** [s] has the text [pattern] somewhere in it. *)
Definition contains (pattern s : string) : Prop :=
  exists before after : string, s = (before ++ pattern ++ after)%string.

End AppPrismModel.


(** Closed facts are settled by evaluation. *)
Ltac eval_closed :=
  first [ reflexivity
        | vm_compute; reflexivity
        | vm_compute; discriminate ].

(** * Properties *)

(** ** Comparisons *)

Module DoubleFacts.

Lemma leb_le (a b : double) : (a <=? b) = true <-> a <= b.
Proof. apply Qle_bool_iff. Qed.

Lemma leb_gt (a b : double) : (a <=? b) = false <-> b < a.
Proof.
  unfold Double.leb. split; intro H.
  - apply Qnot_le_lt. intro Hle. apply Qle_bool_iff in Hle. congruence.
  - destruct (Qle_bool a b) eqn:E; [|reflexivity].
    apply Qle_bool_iff in E. exfalso. apply (Qlt_not_le _ _ H E).
Qed.

Lemma ltb_lt (a b : double) : (a <? b) = true <-> a < b.
Proof.
  unfold Double.ltb. rewrite negb_true_iff. apply leb_gt.
Qed.

Lemma ltb_ge (a b : double) : (a <? b) = false <-> b <= a.
Proof.
  unfold Double.ltb. rewrite negb_false_iff. apply leb_le.
Qed.

End DoubleFacts.

(** ** The class invariant, read as propositions *)

Lemma not_null_Some {A : Type} (p : option A) :
  not_null p = true -> exists a, p = Some a.
Proof.
  destruct p as [a|]; simpl; intro H; [now exists a | discriminate].
Qed.

Lemma invariant_elim (s : tgBulletUnidirectionalCompressionSpring) :
  invariant s = true ->
  0 < m_coefK (base s) /\ 0 <= m_coefD (base s) /\
  0 <= m_prevLength (base s) /\ 0 <= m_restLength (base s) /\
  (exists a1, anchor1 (base s) = Some a1) /\
  (exists a2, anchor2 (base s) = Some a2) /\
  (exists d, m_direction s = Some d) /\
  (2 <= List.length (m_anchors (base s)))%nat.
Proof.
  unfold invariant. rewrite !andb_true_iff.
  intros [[[[[[[Hk Hd] Hp] Hr] H1] H2] H3] Hn].
  repeat split.
  - now apply DoubleFacts.ltb_lt.
  - now apply DoubleFacts.leb_le.
  - now apply DoubleFacts.leb_le.
  - now apply DoubleFacts.leb_le.
  - now apply not_null_Some.
  - now apply not_null_Some.
  - now apply not_null_Some.
  - now apply Nat.leb_le.
Qed.

Lemma invariant_intro (s : tgBulletUnidirectionalCompressionSpring) :
  0 < m_coefK (base s) -> 0 <= m_coefD (base s) ->
  0 <= m_prevLength (base s) -> 0 <= m_restLength (base s) ->
  not_null (anchor1 (base s)) = true ->
  not_null (anchor2 (base s)) = true ->
  not_null (m_direction s) = true ->
  (2 <= List.length (m_anchors (base s)))%nat ->
  invariant s = true.
Proof.
  intros Hk Hd Hp Hr H1 H2 H3 Hn. unfold invariant.
  rewrite H1, H2, H3.
  apply DoubleFacts.ltb_lt in Hk. apply DoubleFacts.leb_le in Hd, Hp, Hr.
  apply Nat.leb_le in Hn.
  now rewrite Hk, Hd, Hp, Hr, Hn.
Qed.

Section Properties.

Variable getCurrentAnchorDistance :
  option tgBulletSpringCableAnchor -> option tgBulletSpringCableAnchor -> double.
Variable getAnchorDirectionUnitVector :
  option tgBulletSpringCableAnchor -> option tgBulletSpringCableAnchor ->
  btVector3.
Variable tgBulletCompressionSpring_ctor :
  list (option tgBulletSpringCableAnchor) -> bool -> double -> double ->
  double -> result tgBulletCompressionSpring.

(** ** Length and force *)

(** A spring whose free end is not attached is never longer than its rest
    length. *)
Lemma detached_length_le_rest (s : tgBulletUnidirectionalCompressionSpring) :
  isFreeEndAttached s = false ->
  getCurrentSpringLength getCurrentAnchorDistance s <= getRestLength s.
Proof.
  intro Hfree. unfold getCurrentSpringLength. rewrite Hfree.
  destruct (getCurrentAnchorDistance (anchor1 (base s)) (anchor2 (base s))
            <? getRestLength s) eqn:E.
  - apply DoubleFacts.ltb_lt in E. now apply Qlt_le_weak.
  - apply Qle_refl.
Qed.

(** With a positive stiffness the assertion of [getSpringForce] holds, and the
    function returns the value of its first line. *)
Lemma getSpringForce_returns (s : tgBulletUnidirectionalCompressionSpring) :
  0 < getCoefK s ->
  getSpringForce getCurrentAnchorDistance s =
  Ok ((- getCoefK s) *
      (getCurrentSpringLength getCurrentAnchorDistance s - getRestLength s)).
Proof.
  intro Hk. unfold getSpringForce.
  destruct (isFreeEndAttached s) eqn:Hfree; simpl; [reflexivity|].
  pose proof (detached_length_le_rest s Hfree) as Hle.
  assert (Hpos : 0 <= (- getCoefK s) *
            (getCurrentSpringLength getCurrentAnchorDistance s - getRestLength s))
    by nra.
  apply DoubleFacts.leb_le in Hpos. now rewrite Hpos.
Qed.

(** The free-end policy of [getCurrentSpringLength], on the distance the
    function reads from [getCurrentAnchorDistance()].  With the free end
    attached the length is that distance, whatever the rest length; with the
    free end not attached it is that distance when the distance is below the
    rest length, and the rest length otherwise, and then [getSpringForce]
    returns zero (whatever the damping coefficient, which the spring state
    [s] ranges over). *)
Lemma length_policy_on_the_distance_read
    (s : tgBulletUnidirectionalCompressionSpring) :
  let dist := getCurrentAnchorDistance (anchor1 (base s)) (anchor2 (base s)) in
  (isFreeEndAttached s = true ->
   getCurrentSpringLength getCurrentAnchorDistance s = dist) /\
  (isFreeEndAttached s = false -> dist < getRestLength s ->
   getCurrentSpringLength getCurrentAnchorDistance s = dist) /\
  (isFreeEndAttached s = false -> getRestLength s <= dist ->
   getCurrentSpringLength getCurrentAnchorDistance s = getRestLength s /\
   exists F, getSpringForce getCurrentAnchorDistance s = Ok F /\ F == 0).
Proof.
  intro dist. split; [|split].
  - intro Hfree. unfold getCurrentSpringLength. now rewrite Hfree.
  - intros Hfree Hlt. unfold getCurrentSpringLength. rewrite Hfree.
    apply DoubleFacts.ltb_lt in Hlt. fold dist. now rewrite Hlt.
  - intros Hfree Hge. apply DoubleFacts.ltb_ge in Hge.
    assert (Hlen : getCurrentSpringLength getCurrentAnchorDistance s =
                   getRestLength s).
    { unfold getCurrentSpringLength. rewrite Hfree. fold dist. now rewrite Hge. }
    split; [exact Hlen|].
    exists ((- getCoefK s) * (getRestLength s - getRestLength s)).
    split; [|ring].
    unfold getSpringForce. rewrite Hlen, Hfree. simpl.
    assert (Hz : 0 <= (- getCoefK s) * (getRestLength s - getRestLength s)).
    { setoid_replace (getRestLength s - getRestLength s) with 0 by ring.
      rewrite Qmult_0_r. apply Qle_refl. }
    apply DoubleFacts.leb_le in Hz. now rewrite Hz.
Qed.

(** C3. For a spring of positive stiffness [k], [getSpringForce] returns
    exactly [-k * (currentSpringLength - restLength)]; a length below the
    rest length gives a positive force; and the value has no damping term:
    two springs with the same stiffness, rest length, free-end flag and
    anchors get the same force, whatever their damping coefficient,
    velocity, damping force and previous length. *)
Theorem C3_spring_force_law (s : tgBulletUnidirectionalCompressionSpring) :
  0 < getCoefK s ->
  let length := getCurrentSpringLength getCurrentAnchorDistance s in
  let force := (- getCoefK s) * (length - getRestLength s) in
  getSpringForce getCurrentAnchorDistance s = Ok force /\
  (length < getRestLength s -> 0 < force) /\
  (forall s' : tgBulletUnidirectionalCompressionSpring,
     getCoefK s' = getCoefK s -> getRestLength s' = getRestLength s ->
     isFreeEndAttached s' = isFreeEndAttached s ->
     anchor1 (base s') = anchor1 (base s) ->
     anchor2 (base s') = anchor2 (base s) ->
     getSpringForce getCurrentAnchorDistance s' =
     getSpringForce getCurrentAnchorDistance s).
Proof.
  intros Hk length force. split; [|split].
  - now apply getSpringForce_returns.
  - intro Hlt. unfold force. nra.
  - intros s' Ek Er Ef E1 E2.
    unfold getSpringForce, getCurrentSpringLength.
    now rewrite Ek, Er, Ef, E1, E2.
Qed.

(** C8. When the free end is not attached, a spring of positive stiffness
    has a spring force that is never negative, so the assertion of
    [getSpringForce] holds and the function returns; this for every anchor
    distance and every damping coefficient. *)
Theorem C8_detached_spring_only_pushes
    (s : tgBulletUnidirectionalCompressionSpring) :
  0 < getCoefK s ->
  isFreeEndAttached s = false ->
  exists F, getSpringForce getCurrentAnchorDistance s = Ok F /\ 0 <= F.
Proof.
  intros Hk Hfree.
  exists ((- getCoefK s) *
          (getCurrentSpringLength getCurrentAnchorDistance s - getRestLength s)).
  split; [now apply getSpringForce_returns|].
  pose proof (detached_length_le_rest s Hfree) as Hle. nra.
Qed.

(** ** One call of [calculateAndApplyForce] *)

(** [(-a) * b] and [-(a * b)] are the same value. *)
Lemma Qmult_opp_l_eq (a b : Q) : (- a) * b = - (a * b).
Proof.
  destruct a as [na da], b as [nb db]. unfold Qmult, Qopp. simpl.
  now rewrite Z.mul_opp_l.
Qed.

Lemma scale_neg (v : btVector3) (t : double) :
  Vec.scale (Vec.neg v) t = Vec.neg (Vec.scale v t).
Proof.
  unfold Vec.scale, Vec.neg. simpl. now rewrite !Qmult_opp_l_eq.
Qed.

(** When both anchors are there and the spring force is returned, the call
    writes the velocity, the damping force and the previous length, and makes
    four calls on the bodies. *)
Lemma calculateAndApplyForce_returns (dt : double) (st : Sim)
    (a1 a2 : tgBulletSpringCableAnchor) (F : double) :
  anchor1 (base (spring st)) = Some a1 ->
  anchor2 (base (spring st)) = Some a2 ->
  getSpringForce getCurrentAnchorDistance (spring st) = Ok F ->
  let s := spring st in
  let currLength := getCurrentSpringLength getCurrentAnchorDistance s in
  let velocity := (currLength - m_prevLength (base s)) / dt in
  let dampingForce := (- getCoefD s) * velocity in
  let force :=
    Vec.scale (getAnchorDirectionUnitVector (anchor1 (base s)) (anchor2 (base s)))
              (F + dampingForce) in
  calculateAndApplyForce
    getCurrentAnchorDistance getAnchorDirectionUnitVector dt st =
  (Ok tt,
   mkSim (set_m_prevLength currLength
            (set_m_dampingForce dampingForce (set_m_velocity velocity s)))
         (engine st ++
          [activate (attachedBody a1);
           applyImpulse (attachedBody a1) (Vec.scale force dt)
                        (getRelativePosition a1);
           activate (attachedBody a2);
           applyImpulse (attachedBody a2) (Vec.neg (Vec.scale force dt))
                        (getRelativePosition a2)])).
Proof.
  intros H1 H2 HF. cbv zeta.
  unfold calculateAndApplyForce, bind, call, read, write, engine_call.
  rewrite HF. cbn [spring engine set_m_prevLength set_m_dampingForce
                   set_m_velocity set_base base anchor1 anchor2].
  rewrite H1. cbn [Res.deref spring engine base anchor2].
  rewrite H2. cbn [Res.deref spring engine].
  rewrite scale_neg. rewrite <- !app_assoc. reflexivity.
Qed.

(** A call that returns found both anchors and a spring force. *)
Lemma calculateAndApplyForce_inv (dt : double) (st : Sim) :
  fst (calculateAndApplyForce
         getCurrentAnchorDistance getAnchorDirectionUnitVector dt st) = Ok tt ->
  exists a1 a2 F,
    anchor1 (base (spring st)) = Some a1 /\
    anchor2 (base (spring st)) = Some a2 /\
    getSpringForce getCurrentAnchorDistance (spring st) = Ok F.
Proof.
  unfold calculateAndApplyForce, bind, call, read, write, engine_call.
  destruct (getSpringForce getCurrentAnchorDistance (spring st)) as [F|f] eqn:HF;
    [|simpl; discriminate].
  cbn [spring engine set_m_prevLength set_m_dampingForce
       set_m_velocity set_base base anchor1 anchor2].
  destruct (anchor1 (base (spring st))) as [a1|] eqn:H1;
    [|simpl; discriminate].
  cbn [Res.deref spring engine base anchor2].
  destruct (anchor2 (base (spring st))) as [a2|] eqn:H2;
    [|simpl; discriminate].
  intros _. now exists a1, a2, F.
Qed.

(** The calls on the bodies move nothing and the members written are not read
    by the length: the spring is as long after the call as before it. *)
Lemma length_after_writes (s : tgBulletUnidirectionalCompressionSpring)
    (l f v : double) :
  getCurrentSpringLength getCurrentAnchorDistance
    (set_m_prevLength l (set_m_dampingForce f (set_m_velocity v s))) =
  getCurrentSpringLength getCurrentAnchorDistance s.
Proof. reflexivity. Qed.

(** C4. In a call of [calculateAndApplyForce(dt)] with [dt > 0] on a spring
    that satisfies the class invariant, the call returns, the velocity it
    stores is [(currentSpringLength - previousLength) / dt], the damping force
    it stores is [-d * velocity], and the impulse on the first body is the
    unit vector scaled by [springForce + dampingForce] and by [dt].  With the
    length going from 0.8 to 0.7, [dt = 0.01] and [d = 5], the damping force
    is 50. *)
Theorem C4_velocity_and_damping (dt : double) (st : Sim) :
  invariant (spring st) = true ->
  0 < dt ->
  let s := spring st in
  let length := getCurrentSpringLength getCurrentAnchorDistance s in
  let run :=
    calculateAndApplyForce
      getCurrentAnchorDistance getAnchorDirectionUnitVector dt st in
  let s' := spring (snd run) in
  fst run = Ok tt /\
  m_velocity (base s') = (length - m_prevLength (base s)) / dt /\
  m_dampingForce (base s') = (- getCoefD s) * m_velocity (base s') /\
  (exists F a1,
     getSpringForce getCurrentAnchorDistance s = Ok F /\
     anchor1 (base s) = Some a1 /\
     In (applyImpulse (attachedBody a1)
           (Vec.scale
              (Vec.scale
                 (getAnchorDirectionUnitVector
                    (anchor1 (base s)) (anchor2 (base s)))
                 (F + m_dampingForce (base s')))
              dt)
           (getRelativePosition a1))
        (engine (snd run))) /\
  (m_prevLength (base s) == 0.8 -> length == 0.7 -> dt == 0.01 ->
   getCoefD s == 5 -> m_dampingForce (base s') == 50).
Proof.
  intros Hinv Hdt.
  destruct (invariant_elim _ Hinv)
    as (Hk & _ & _ & _ & [a1 H1] & [a2 H2] & _ & _).
  pose proof (getSpringForce_returns (spring st) Hk) as HF.
  cbv zeta.
  rewrite (calculateAndApplyForce_returns dt st a1 a2 _ H1 H2 HF).
  cbn [fst snd spring engine set_m_prevLength set_m_dampingForce
       set_m_velocity set_base base m_velocity m_dampingForce].
  split; [reflexivity|]. split; [reflexivity|]. split; [reflexivity|].
  split.
  - eexists. exists a1. split; [exact HF|]. split; [exact H1|].
    apply in_or_app. right. right. left. reflexivity.
  - intros E1 E2 E3 E4. rewrite E1, E2, E3, E4. reflexivity.
Qed.

(** ** One call of [step] *)

(** What [step] does on a spring that has both anchors and returns a spring
    force. *)
Lemma step_run (dt : double) (st : Sim) :
  fst (calculateAndApplyForce
         getCurrentAnchorDistance getAnchorDirectionUnitVector dt st) = Ok tt ->
  step getCurrentAnchorDistance getAnchorDirectionUnitVector dt st =
  if dt <=? 0
  then (Raise (invalid_argument "dt is not positive!"), st)
  else
    let st' :=
      snd (calculateAndApplyForce
             getCurrentAnchorDistance getAnchorDirectionUnitVector dt st) in
    if getCurrentSpringLength getCurrentAnchorDistance (spring st') <=? 0
    then (Raise (runtime_error negative_length_message), st')
    else (Res.assert (invariant (spring st')) "invariant()", st').
Proof.
  intro Hok. unfold step, bind, throw, ret.
  destruct (dt <=? 0); [reflexivity|].
  destruct (calculateAndApplyForce
              getCurrentAnchorDistance getAnchorDirectionUnitVector dt st)
    as [r st'] eqn:E.
  simpl in Hok. subst r. cbn [snd].
  unfold read, call. cbn [fst snd].
  destruct (getCurrentSpringLength getCurrentAnchorDistance (spring st') <=? 0);
    reflexivity.
Qed.

(** The class invariant makes [calculateAndApplyForce] return. *)
Lemma calculateAndApplyForce_total (dt : double) (st : Sim) :
  invariant (spring st) = true ->
  fst (calculateAndApplyForce
         getCurrentAnchorDistance getAnchorDirectionUnitVector dt st) = Ok tt.
Proof.
  intro Hinv.
  destruct (invariant_elim _ Hinv)
    as (Hk & _ & _ & _ & [a1 H1] & [a2 H2] & _ & _).
  pose proof (getSpringForce_returns (spring st) Hk) as HF.
  now rewrite (calculateAndApplyForce_returns dt st a1 a2 _ H1 H2 HF).
Qed.

(** The writes of [calculateAndApplyForce] keep the class invariant when the
    length they store is not negative. *)
Lemma invariant_after_writes (s : tgBulletUnidirectionalCompressionSpring)
    (l f v : double) :
  invariant s = true -> 0 <= l ->
  invariant (set_m_prevLength l (set_m_dampingForce f (set_m_velocity v s))) =
  true.
Proof.
  intros Hinv Hl.
  destruct (invariant_elim _ Hinv)
    as (Hk & Hd & _ & Hr & [a1 H1] & [a2 H2] & [d H3] & Hn).
  apply invariant_intro; cbn; try assumption.
  - now rewrite H1.
  - now rewrite H2.
  - now rewrite H3.
Qed.

(** The state [calculateAndApplyForce] leaves, on a spring that satisfies
    the class invariant. *)
Lemma spring_after_force (dt : double) (st : Sim) :
  invariant (spring st) = true ->
  let s := spring st in
  let length := getCurrentSpringLength getCurrentAnchorDistance s in
  let velocity := (length - m_prevLength (base s)) / dt in
  spring (snd (calculateAndApplyForce
                 getCurrentAnchorDistance getAnchorDirectionUnitVector dt st)) =
  set_m_prevLength length
    (set_m_dampingForce ((- getCoefD s) * velocity) (set_m_velocity velocity s)).
Proof.
  intro Hinv.
  destruct (invariant_elim _ Hinv)
    as (Hk & _ & _ & _ & [a1 H1] & [a2 H2] & _ & _).
  pose proof (getSpringForce_returns (spring st) Hk) as HF.
  cbv zeta.
  now rewrite (calculateAndApplyForce_returns dt st a1 a2 _ H1 H2 HF).
Qed.

(** [calculateAndApplyForce] fails on an assertion or a null pointer only,
    never with the fatal-length error. *)
Lemma calculateAndApplyForce_not_fatal (dt : double) (st : Sim) :
  fatal_length
    (fst (calculateAndApplyForce
            getCurrentAnchorDistance getAnchorDirectionUnitVector dt st)) =
  false.
Proof.
  unfold calculateAndApplyForce, bind, call, read, write, engine_call.
  destruct (getSpringForce getCurrentAnchorDistance (spring st)) as [F|f] eqn:HF.
  - cbn [spring engine set_m_prevLength set_m_dampingForce
         set_m_velocity set_base base anchor1 anchor2].
    destruct (anchor1 (base (spring st))) as [a1|]; [|reflexivity].
    cbn [Res.deref spring engine base anchor2].
    destruct (anchor2 (base (spring st))) as [a2|]; reflexivity.
  - unfold getSpringForce, Res.assert in HF.
    destruct (negb (isFreeEndAttached (spring st))); simpl in HF;
      [|discriminate].
    destruct (0 <=? _); simpl in HF; [discriminate|].
    injection HF as <-. reflexivity.
Qed.

(** After a positive time step that got through [calculateAndApplyForce],
    [step] leaves the state that call left. *)
Lemma step_state (dt : double) (st : Sim) :
  0 < dt ->
  fst (calculateAndApplyForce
         getCurrentAnchorDistance getAnchorDirectionUnitVector dt st) = Ok tt ->
  snd (step getCurrentAnchorDistance getAnchorDirectionUnitVector dt st) =
  snd (calculateAndApplyForce
         getCurrentAnchorDistance getAnchorDirectionUnitVector dt st).
Proof.
  intros Hdt Hok. rewrite (step_run dt st Hok).
  rewrite (proj2 (DoubleFacts.leb_gt dt 0) Hdt). cbv zeta.
  destruct (_ <=? 0); reflexivity.
Qed.

(** A [step] that ends in the fatal-length error had a positive time step,
    got through [calculateAndApplyForce] and found a length that is not
    positive. *)
Lemma step_fatal_inv (dt : double) (st : Sim) (what : string) :
  fst (step getCurrentAnchorDistance getAnchorDirectionUnitVector dt st) =
  Raise (runtime_error what) ->
  0 < dt /\
  fst (calculateAndApplyForce
         getCurrentAnchorDistance getAnchorDirectionUnitVector dt st) = Ok tt.
Proof.
  intro H.
  destruct (dt <=? 0) eqn:Edt.
  - unfold step, bind, throw in H. rewrite Edt in H. discriminate.
  - split; [exact (proj1 (DoubleFacts.leb_gt dt 0) Edt)|].
    pose proof (calculateAndApplyForce_not_fatal dt st) as Hnf.
    unfold step, bind, ret in H. rewrite Edt in H.
    destruct (calculateAndApplyForce
                getCurrentAnchorDistance getAnchorDirectionUnitVector dt st)
      as [[[]|f] st'] eqn:E; [reflexivity|].
    cbn in H, Hnf. injection H as ->. discriminate.
Qed.

(** C5. In a call of [step(dt)] with [dt > 0] on a spring that satisfies
    the class invariant, the calls made on the bodies are: activate body 1,
    apply [impulse1] at the relative position of anchor1, activate body 2,
    apply [impulse2] at the relative position of anchor2; [impulse1] is the
    unit vector between the anchors scaled by the magnitude (spring force
    plus damping force) and by [dt]; [impulse2] is its exact negative; and
    the calls are the same whatever the direction [m_direction] of the
    spring is. *)
Theorem C5_impulses_are_opposite (dt : double) (st : Sim) :
  invariant (spring st) = true ->
  0 < dt ->
  let s := spring st in
  let st' :=
    snd (step getCurrentAnchorDistance getAnchorDirectionUnitVector dt st) in
  exists a1 a2 F impulse1 impulse2,
    anchor1 (base s) = Some a1 /\
    anchor2 (base s) = Some a2 /\
    getSpringForce getCurrentAnchorDistance s = Ok F /\
    engine st' =
      engine st ++
      [activate (attachedBody a1);
       applyImpulse (attachedBody a1) impulse1 (getRelativePosition a1);
       activate (attachedBody a2);
       applyImpulse (attachedBody a2) impulse2 (getRelativePosition a2)] /\
    impulse1 =
      Vec.scale
        (Vec.scale
           (getAnchorDirectionUnitVector (anchor1 (base s)) (anchor2 (base s)))
           (F + m_dampingForce (base (spring st'))))
        dt /\
    impulse2 = Vec.neg impulse1 /\
    forall direction' : option btVector3,
      engine
        (snd (step getCurrentAnchorDistance getAnchorDirectionUnitVector dt
                (mkSim (mkSpring (base s) direction') (engine st)))) =
      engine st'.
Proof.
  intros Hinv Hdt.
  destruct (invariant_elim _ Hinv)
    as (Hk & _ & _ & _ & [a1 H1] & [a2 H2] & _ & _).
  pose proof (getSpringForce_returns (spring st) Hk) as HF.
  pose proof (calculateAndApplyForce_returns dt st a1 a2 _ H1 H2 HF) as Hrun.
  cbv zeta in Hrun |- *.
  assert (Hok : fst (calculateAndApplyForce
                       getCurrentAnchorDistance getAnchorDirectionUnitVector
                       dt st) = Ok tt) by now rewrite Hrun.
  rewrite (step_state dt st Hdt Hok), Hrun. cbn [snd spring engine].
  exists a1, a2. eexists. eexists. eexists.
  split; [exact H1|]. split; [exact H2|]. split; [exact HF|].
  split; [reflexivity|]. split; [reflexivity|]. split; [reflexivity|].
  intro direction'.
  set (st2 := mkSim (mkSpring (base (spring st)) direction') (engine st)).
  pose proof (calculateAndApplyForce_returns dt st2 a1 a2 _ H1 H2 HF) as Hrun2.
  cbv zeta in Hrun2.
  assert (Hok2 : fst (calculateAndApplyForce
                        getCurrentAnchorDistance getAnchorDirectionUnitVector
                        dt st2) = Ok tt) by now rewrite Hrun2.
  rewrite (step_state dt st2 Hdt Hok2), Hrun2. reflexivity.
Qed.

(** C6. For every [dt <= 0], [step(dt)] throws [std::invalid_argument] and
    leaves everything as it was: the spring, its previous length included,
    and the log of calls on the bodies, so no impulse is applied. *)
Theorem C6_nonpositive_dt_rejected (dt : double) (st : Sim) :
  dt <= 0 ->
  step getCurrentAnchorDistance getAnchorDirectionUnitVector dt st =
  (Raise (invalid_argument "dt is not positive!"), st).
Proof.
  intro Hdt. apply DoubleFacts.leb_le in Hdt.
  unfold step, bind, throw. now rewrite Hdt.
Qed.


(** ** The class invariant along a simulation *)

(** A positive length after [calculateAndApplyForce] means the previous
    length it stored is positive, and the class invariant still holds. *)
Lemma invariant_after_force (dt : double) (st : Sim) :
  invariant (spring st) = true ->
  let st' :=
    snd (calculateAndApplyForce
           getCurrentAnchorDistance getAnchorDirectionUnitVector dt st) in
  0 < getCurrentSpringLength getCurrentAnchorDistance (spring st') ->
  invariant (spring st') = true.
Proof.
  intros Hinv st'. unfold st'.
  rewrite (spring_after_force dt st Hinv). cbv zeta.
  rewrite length_after_writes. intro Hlen.
  apply invariant_after_writes; [assumption | now apply Qlt_le_weak].
Qed.

(** The engine moving the anchors does not touch what the invariant reads. *)
Lemma invariant_move_anchors
    (f : tgBulletSpringCableAnchor -> tgBulletSpringCableAnchor)
    (s : tgBulletUnidirectionalCompressionSpring) :
  invariant (move_anchors f s) = invariant s.
Proof.
  unfold invariant, move_anchors, set_base. cbn.
  rewrite length_map.
  destruct (anchor1 (base s)), (anchor2 (base s)); reflexivity.
Qed.

(** The constructor ends with [assert(invariant())]. *)
Lemma constructor_establishes_invariant
    (anchors : list (option tgBulletSpringCableAnchor))
    (isFreeEndAttached : bool) (coefK coefD restLength : double)
    (direction : option btVector3)
    (this : tgBulletUnidirectionalCompressionSpring) :
  new_tgBulletUnidirectionalCompressionSpring tgBulletCompressionSpring_ctor
    anchors isFreeEndAttached coefK coefD restLength direction = Ok this ->
  invariant this = true.
Proof.
  unfold new_tgBulletUnidirectionalCompressionSpring, Res.bind.
  destruct (tgBulletCompressionSpring_ctor _ _ _ _ _) as [b|]; [|discriminate].
  cbn [m_direction].
  destruct direction as [d|]; cbn [Res.deref]; [|discriminate].
  unfold Res.assert.
  destruct (invariant (mkSpring b (Some d))) eqn:E; [|discriminate].
  intro H. injection H as <-. exact E.
Qed.

(** A call of [step] that does not end in the fatal-length error keeps the
    class invariant. *)
Lemma step_keeps_invariant (dt : double) (st : Sim) :
  invariant (spring st) = true ->
  fatal_length
    (fst (step getCurrentAnchorDistance getAnchorDirectionUnitVector dt st)) =
  false ->
  invariant
    (spring
       (snd (step getCurrentAnchorDistance getAnchorDirectionUnitVector dt st))) =
  true.
Proof.
  intros Hinv.
  pose proof (calculateAndApplyForce_total dt st Hinv) as Hok.
  rewrite (step_run dt st Hok).
  destruct (dt <=? 0); [intros _; exact Hinv|]. cbv zeta.
  destruct (_ <=? 0) eqn:Elen; [discriminate|].
  intros _. cbn [snd].
  apply invariant_after_force; [assumption|].
  exact (proj1 (DoubleFacts.leb_gt _ _) Elen).
Qed.

(** C9. The class invariant (stiffness positive, damping, previous length
    and rest length not negative, both anchors and the direction not null, at
    least two anchors) holds in every state a spring reaches: right after the
    constructor has returned, after the engine has moved the anchors, and
    after every call of [step] that did not end in the fatal-length error. *)
Theorem C9_invariant_holds (st : Sim) :
  reachable getCurrentAnchorDistance getAnchorDirectionUnitVector
            tgBulletCompressionSpring_ctor st ->
  invariant (spring st) = true.
Proof.
  induction 1 as [anchors free k d rest dir this calls Hnew
                 | f st Hreach IH
                 | dt st Hreach IH Hstep].
  - exact (constructor_establishes_invariant _ _ _ _ _ _ _ Hnew).
  - cbn [spring]. now rewrite invariant_move_anchors.
  - now apply step_keeps_invariant.
Qed.

(** C10. When [step(dt)] ends in the fatal-length [std::runtime_error], the
    time step was positive and the state is no longer the one at entry: the
    two bodies were activated and received their impulses, and the previous
    length of the spring was overwritten with the length computed in this
    call. *)
Theorem C10_fatal_error_is_not_atomic (dt : double) (st : Sim)
    (what : string) :
  fst (step getCurrentAnchorDistance getAnchorDirectionUnitVector dt st) =
  Raise (runtime_error what) ->
  let s := spring st in
  let st' :=
    snd (step getCurrentAnchorDistance getAnchorDirectionUnitVector dt st) in
  0 < dt /\
  (exists a1 a2 impulse,
     anchor1 (base s) = Some a1 /\
     anchor2 (base s) = Some a2 /\
     engine st' =
       engine st ++
       [activate (attachedBody a1);
        applyImpulse (attachedBody a1) impulse (getRelativePosition a1);
        activate (attachedBody a2);
        applyImpulse (attachedBody a2) (Vec.neg impulse)
                     (getRelativePosition a2)]) /\
  m_prevLength (base (spring st')) =
    getCurrentSpringLength getCurrentAnchorDistance s /\
  st' <> st.
Proof.
  intros Hfatal.
  destruct (step_fatal_inv dt st what Hfatal) as [Hdt Hok].
  destruct (calculateAndApplyForce_inv dt st Hok) as (a1 & a2 & F & H1 & H2 & HF).
  pose proof (calculateAndApplyForce_returns dt st a1 a2 F H1 H2 HF) as Hrun.
  cbv zeta in Hrun |- *.
  rewrite (step_state dt st Hdt Hok), Hrun. cbn [snd spring engine].
  split; [exact Hdt|]. split; [|split].
  - exists a1, a2. eexists.
    split; [exact H1|]. split; [exact H2|]. reflexivity.
  - reflexivity.
  - intro E. apply (f_equal engine) in E. cbn [engine] in E.
    apply (f_equal (@List.length _)) in E.
    rewrite length_app in E. cbn [List.length] in E. lia.
Qed.


(** ** Further properties *)

(** X1. For a fixed positive stiffness and rest length the spring force does
    not increase with the length of the spring. *)
Theorem X1_spring_force_monotone
    (s1 s2 : tgBulletUnidirectionalCompressionSpring) :
  0 < getCoefK s1 ->
  getCoefK s2 = getCoefK s1 ->
  getRestLength s2 = getRestLength s1 ->
  getCurrentSpringLength getCurrentAnchorDistance s1 <=
  getCurrentSpringLength getCurrentAnchorDistance s2 ->
  exists F1 F2,
    getSpringForce getCurrentAnchorDistance s1 = Ok F1 /\
    getSpringForce getCurrentAnchorDistance s2 = Ok F2 /\
    F2 <= F1.
Proof.
  intros Hk Ek Er Hle.
  assert (Hk2 : 0 < getCoefK s2) by now rewrite Ek.
  exists ((- getCoefK s1) *
          (getCurrentSpringLength getCurrentAnchorDistance s1 - getRestLength s1)).
  exists ((- getCoefK s2) *
          (getCurrentSpringLength getCurrentAnchorDistance s2 - getRestLength s2)).
  split; [now apply getSpringForce_returns|].
  split; [now apply getSpringForce_returns|].
  rewrite Ek, Er. nra.
Qed.

(** X2. On a spring that satisfies the class invariant, [step] ends in one
    of three ways: it returns, it rejects the time step, or it reports the
    fatal length; no assertion fails and no null pointer is read. *)
Theorem X2_step_outcomes (dt : double) (st : Sim) :
  invariant (spring st) = true ->
  let r :=
    fst (step getCurrentAnchorDistance getAnchorDirectionUnitVector dt st) in
  r = Ok tt \/
  r = Raise (invalid_argument "dt is not positive!") \/
  r = Raise (runtime_error negative_length_message).
Proof.
  intros Hinv r. unfold r.
  pose proof (calculateAndApplyForce_total dt st Hinv) as Hok.
  rewrite (step_run dt st Hok).
  destruct (dt <=? 0); [right; left; reflexivity|]. cbv zeta.
  destruct (_ <=? 0) eqn:Elen; [right; right; reflexivity|].
  left. cbn [fst].
  rewrite (invariant_after_force dt st Hinv
             (proj1 (DoubleFacts.leb_gt _ _) Elen)).
  reflexivity.
Qed.

(** X3. A detached spring of rest length 0 satisfies the class invariant,
    yet every call of [step] on it with a positive time step ends in the
    fatal-length error: its length is never above its rest length. *)
Theorem X3_zero_rest_length_is_fatal (dt : double) (st : Sim) :
  invariant (spring st) = true ->
  isFreeEndAttached (spring st) = false ->
  getRestLength (spring st) == 0 ->
  0 < dt ->
  fst (step getCurrentAnchorDistance getAnchorDirectionUnitVector dt st) =
  Raise (runtime_error negative_length_message).
Proof.
  intros Hinv Hfree Hrest Hdt.
  pose proof (calculateAndApplyForce_total dt st Hinv) as Hok.
  rewrite (step_run dt st Hok).
  rewrite (proj2 (DoubleFacts.leb_gt dt 0) Hdt). cbv zeta.
  rewrite (spring_after_force dt st Hinv). cbv zeta.
  rewrite length_after_writes.
  pose proof (detached_length_le_rest (spring st) Hfree) as Hle.
  rewrite Hrest in Hle.
  now rewrite (proj2 (DoubleFacts.leb_le _ 0) Hle).
Qed.

(** ** What [step] leaves behind, whatever happens *)

(** [step] leaves the state at entry when it rejects the time step, and the
    state [calculateAndApplyForce] left in every other case. *)
Lemma step_leaves (dt : double) (st : Sim) :
  snd (step getCurrentAnchorDistance getAnchorDirectionUnitVector dt st) =
  if dt <=? 0 then st
  else snd (calculateAndApplyForce
              getCurrentAnchorDistance getAnchorDirectionUnitVector dt st).
Proof.
  unfold step, bind, throw, ret, read, call.
  destruct (dt <=? 0); [reflexivity|].
  destruct (calculateAndApplyForce
              getCurrentAnchorDistance getAnchorDirectionUnitVector dt st)
    as [[[]|f] st']; cbn [fst snd]; [|reflexivity].
  destruct (_ <=? 0); reflexivity.
Qed.

(** A failure of [calculateAndApplyForce] is the failure of [step]. *)
Lemma step_fails_with (dt : double) (st st' : Sim) (f : failure) :
  0 < dt ->
  calculateAndApplyForce
    getCurrentAnchorDistance getAnchorDirectionUnitVector dt st =
  (Raise f, st') ->
  step getCurrentAnchorDistance getAnchorDirectionUnitVector dt st =
  (Raise f, st').
Proof.
  intros Hdt E. unfold step, bind, ret.
  rewrite (proj2 (DoubleFacts.leb_gt dt 0) Hdt). now rewrite E.
Qed.

(** Every way [calculateAndApplyForce] can go: the assertion of
    [getSpringForce] fails before anything is written; a null first anchor
    is found after the three writes; a null second anchor after the first
    body has been pushed. *)
Lemma calculateAndApplyForce_leaves (dt : double) (st : Sim) :
  let s := spring st in
  let run :=
    calculateAndApplyForce
      getCurrentAnchorDistance getAnchorDirectionUnitVector dt st in
  match getSpringForce getCurrentAnchorDistance s with
  | Raise f => run = (Raise f, st)
  | Ok F =>
      let currLength := getCurrentSpringLength getCurrentAnchorDistance s in
      let velocity := (currLength - m_prevLength (base s)) / dt in
      let dampingForce := (- getCoefD s) * velocity in
      let force :=
        Vec.scale
          (getAnchorDirectionUnitVector (anchor1 (base s)) (anchor2 (base s)))
          (F + dampingForce) in
      let s' :=
        set_m_prevLength currLength
          (set_m_dampingForce dampingForce (set_m_velocity velocity s)) in
      match anchor1 (base s), anchor2 (base s) with
      | None, _ => run = (Raise null_dereference, mkSim s' (engine st))
      | Some a1, None =>
          run =
          (Raise null_dereference,
           mkSim s'
             (engine st ++
              [activate (attachedBody a1);
               applyImpulse (attachedBody a1) (Vec.scale force dt)
                            (getRelativePosition a1)]))
      | Some a1, Some a2 =>
          run =
          (Ok tt,
           mkSim s'
             (engine st ++
              [activate (attachedBody a1);
               applyImpulse (attachedBody a1) (Vec.scale force dt)
                            (getRelativePosition a1);
               activate (attachedBody a2);
               applyImpulse (attachedBody a2) (Vec.neg (Vec.scale force dt))
                            (getRelativePosition a2)]))
      end
  end.
Proof.
  cbv zeta.
  destruct (getSpringForce getCurrentAnchorDistance (spring st)) as [F|f] eqn:HF.
  - destruct (anchor1 (base (spring st))) as [a1|] eqn:H1.
    + destruct (anchor2 (base (spring st))) as [a2|] eqn:H2.
      * pose proof (calculateAndApplyForce_returns dt st a1 a2 F H1 H2 HF) as R.
        cbv zeta in R. rewrite H1, H2 in R. exact R.
      * unfold calculateAndApplyForce, bind, call, read, write, engine_call.
        rewrite HF. cbn [spring engine set_m_prevLength set_m_dampingForce
                         set_m_velocity set_base base anchor1 anchor2].
        rewrite H1. cbn [Res.deref spring engine base anchor2].
        rewrite H2. cbn [Res.deref spring engine].
        rewrite <- !app_assoc. reflexivity.
    + unfold calculateAndApplyForce, bind, call, read, write, engine_call.
      rewrite HF. cbn [spring engine set_m_prevLength set_m_dampingForce
                       set_m_velocity set_base base anchor1 anchor2].
      rewrite H1. reflexivity.
  - unfold calculateAndApplyForce, bind, call. now rewrite HF.
Qed.

(** X4. [step] never changes the settings of the spring: whatever the time
    step and however the call ends, the stiffness, the damping coefficient,
    the rest length, the free-end flag, the anchors and the direction are
    those at entry; only the velocity, the damping force and the previous
    length are written. *)
Theorem X4_step_keeps_settings (dt : double) (st : Sim) :
  let s := spring st in
  let s' :=
    spring
      (snd (step getCurrentAnchorDistance getAnchorDirectionUnitVector dt st)) in
  m_coefK (base s') = m_coefK (base s) /\
  m_coefD (base s') = m_coefD (base s) /\
  m_restLength (base s') = m_restLength (base s) /\
  m_isFreeEndAttached (base s') = m_isFreeEndAttached (base s) /\
  m_anchors (base s') = m_anchors (base s) /\
  anchor1 (base s') = anchor1 (base s) /\
  anchor2 (base s') = anchor2 (base s) /\
  m_direction s' = m_direction s.
Proof.
  cbv zeta. rewrite step_leaves.
  destruct (dt <=? 0); [repeat split|].
  pose proof (calculateAndApplyForce_leaves dt st) as L. cbv zeta in L.
  destruct (getSpringForce getCurrentAnchorDistance (spring st)) as [F|f];
    [|rewrite L; repeat split].
  destruct (anchor1 (base (spring st))) as [a1|] eqn:H1;
    [destruct (anchor2 (base (spring st))) as [a2|] eqn:H2|];
    rewrite L; cbn; repeat split; assumption.
Qed.

(** X5. [step] only appends to the calls made on the bodies, at most four
    of them, and each is an [activate] or an [applyImpulse] on the body of
    one of the spring's two anchors, at that anchor's relative position. *)
Theorem X5_step_calls_only_its_bodies (dt : double) (st : Sim) :
  exists calls,
    engine
      (snd (step getCurrentAnchorDistance getAnchorDirectionUnitVector dt st)) =
    engine st ++ calls /\
    (List.length calls <= 4)%nat /\
    forall c, In c calls ->
      exists a,
        (anchor1 (base (spring st)) = Some a \/
         anchor2 (base (spring st)) = Some a) /\
        (c = activate (attachedBody a) \/
         exists impulse,
           c = applyImpulse (attachedBody a) impulse (getRelativePosition a)).
Proof.
  rewrite step_leaves.
  assert (Hnone : exists calls,
            engine st = engine st ++ calls /\ (List.length calls <= 4)%nat /\
            forall c, In c calls ->
              exists a,
                (anchor1 (base (spring st)) = Some a \/
                 anchor2 (base (spring st)) = Some a) /\
                (c = activate (attachedBody a) \/
                 exists impulse,
                   c = applyImpulse (attachedBody a) impulse
                         (getRelativePosition a))).
  { exists []. rewrite app_nil_r. split; [reflexivity|].
    split; [cbn; lia | intros c []]. }
  destruct (dt <=? 0); [exact Hnone|].
  pose proof (calculateAndApplyForce_leaves dt st) as L. cbv zeta in L.
  destruct (getSpringForce getCurrentAnchorDistance (spring st)) as [F|f];
    [|rewrite L; exact Hnone].
  destruct (anchor1 (base (spring st))) as [a1|] eqn:H1;
    [destruct (anchor2 (base (spring st))) as [a2|] eqn:H2|];
    rewrite L; cbn [snd engine]; [| |exact Hnone].
  - eexists. split; [reflexivity|]. split; [cbn; lia|].
    intros c [<-|[<-|[<-|[<-|[]]]]].
    + exists a1. split; [now left | now left].
    + exists a1. split; [now left | right; eexists; reflexivity].
    + exists a2. split; [now right | now left].
    + exists a2. split; [now right | right; eexists; reflexivity].
  - eexists. split; [reflexivity|]. split; [cbn; lia|].
    intros c [<-|[<-|[]]].
    + exists a1. split; [now left | now left].
    + exists a1. split; [now left | right; eexists; reflexivity].
Qed.

(** X6. A spring whose anchors do not move between two calls of [step] is
    undamped in the second: when the first call returned, the second
    returns too, stores a velocity and a damping force equal to zero, keeps
    the previous length, and pushes the bodies with the spring force
    alone. *)
Theorem X6_still_spring_is_undamped (dt1 dt2 : double) (st : Sim) :
  invariant (spring st) = true ->
  0 < dt1 -> 0 < dt2 ->
  fst (step getCurrentAnchorDistance getAnchorDirectionUnitVector dt1 st) =
  Ok tt ->
  let st1 :=
    snd (step getCurrentAnchorDistance getAnchorDirectionUnitVector dt1 st) in
  let st2 :=
    snd (step getCurrentAnchorDistance getAnchorDirectionUnitVector dt2 st1) in
  fst (step getCurrentAnchorDistance getAnchorDirectionUnitVector dt2 st1) =
  Ok tt /\
  m_velocity (base (spring st2)) == 0 /\
  m_dampingForce (base (spring st2)) == 0 /\
  m_prevLength (base (spring st2)) = m_prevLength (base (spring st1)) /\
  exists F a1 a2 impulse,
    getSpringForce getCurrentAnchorDistance (spring st) = Ok F /\
    engine st2 =
      engine st1 ++
      [activate (attachedBody a1);
       applyImpulse (attachedBody a1) impulse (getRelativePosition a1);
       activate (attachedBody a2);
       applyImpulse (attachedBody a2) (Vec.neg impulse)
                    (getRelativePosition a2)] /\
    Vec.eqv impulse
      (Vec.scale
         (Vec.scale
            (getAnchorDirectionUnitVector
               (anchor1 (base (spring st))) (anchor2 (base (spring st))))
            F)
         dt2).
Proof.
  intros Hinv Hdt1 Hdt2 Hret.
  destruct (invariant_elim _ Hinv)
    as (Hk & _ & _ & _ & [a1 H1] & [a2 H2] & _ & _).
  pose proof (getSpringForce_returns (spring st) Hk) as HF.
  pose proof (calculateAndApplyForce_total dt1 st Hinv) as Hok1.
  assert (Hinv1 : invariant
            (spring (snd (step getCurrentAnchorDistance
                            getAnchorDirectionUnitVector dt1 st))) = true).
  { apply step_keeps_invariant; [exact Hinv | now rewrite Hret]. }
  assert (Hlen1 : 0 < getCurrentSpringLength getCurrentAnchorDistance
                        (spring st)).
  { pose proof Hret as Hret'. rewrite (step_run dt1 st Hok1) in Hret'.
    rewrite (proj2 (DoubleFacts.leb_gt dt1 0) Hdt1) in Hret'.
    cbv zeta in Hret'.
    rewrite (spring_after_force dt1 st Hinv) in Hret'. cbv zeta in Hret'.
    rewrite length_after_writes in Hret'.
    destruct (_ <=? 0) eqn:E in Hret'; [discriminate|].
    exact (proj1 (DoubleFacts.leb_gt _ _) E). }
  cbv zeta. revert Hinv1.
  rewrite (step_state dt1 st Hdt1 Hok1).
  pose proof (calculateAndApplyForce_returns dt1 st a1 a2 _ H1 H2 HF) as Hrun1.
  cbv zeta in Hrun1. rewrite Hrun1. cbn [snd]. intro Hinv1.
  match goal with
  | |- context [step _ _ dt2 ?s] => set (st1 := s) in *
  end.
  pose proof (calculateAndApplyForce_total dt2 st1 Hinv1) as Hok2.
  assert (H1' : anchor1 (base (spring st1)) = Some a1) by exact H1.
  assert (H2' : anchor2 (base (spring st1)) = Some a2) by exact H2.
  assert (HF' : getSpringForce getCurrentAnchorDistance (spring st1) =
                getSpringForce getCurrentAnchorDistance (spring st))
    by reflexivity.
  rewrite HF in HF'.
  pose proof (calculateAndApplyForce_returns dt2 st1 a1 a2 _ H1' H2' HF')
    as Hrun2.
  cbv zeta in Hrun2.
  rewrite (step_state dt2 st1 Hdt2 Hok2).
  split.
  { rewrite (step_run dt2 st1 Hok2).
    rewrite (proj2 (DoubleFacts.leb_gt dt2 0) Hdt2). cbv zeta.
    rewrite (spring_after_force dt2 st1 Hinv1). cbv zeta.
    rewrite length_after_writes.
    change (getCurrentSpringLength getCurrentAnchorDistance (spring st1))
      with (getCurrentSpringLength getCurrentAnchorDistance (spring st)).
    rewrite (proj2 (DoubleFacts.leb_gt _ 0) Hlen1).
    rewrite invariant_after_writes;
      [reflexivity | exact Hinv1 | now apply Qlt_le_weak]. }
  rewrite Hrun2. cbn [snd spring engine].
  assert (Hv : (getCurrentSpringLength getCurrentAnchorDistance (spring st1) -
                m_prevLength (base (spring st1))) / dt2 == 0).
  { change (m_prevLength (base (spring st1)))
      with (getCurrentSpringLength getCurrentAnchorDistance (spring st)).
    change (getCurrentSpringLength getCurrentAnchorDistance (spring st1))
      with (getCurrentSpringLength getCurrentAnchorDistance (spring st)).
    unfold Qdiv. ring. }
  split; [exact Hv|].
  split.
  { cbn [m_dampingForce base set_m_prevLength set_m_dampingForce
         set_m_velocity set_base].
    rewrite Hv. ring. }
  split; [reflexivity|].
  eexists. exists a1, a2. eexists.
  split; [exact HF|]. split; [reflexivity|].
  unfold Vec.eqv, Vec.scale. cbn [vx vy vz].
  change (getCoefD (spring st1)) with (getCoefD (spring st)).
  rewrite H1', H2', H1, H2.
  repeat split; rewrite Hv; ring.
Qed.

(** X7. When the assertion of [getSpringForce] fails (a detached spring of
    negative stiffness, compressed), [step] ends there: nothing has been
    written to the spring and no body has been touched. *)
Theorem X7_failed_assertion_changes_nothing (dt : double) (st : Sim) :
  0 < dt ->
  isFreeEndAttached (spring st) = false ->
  getCoefK (spring st) < 0 ->
  getCurrentSpringLength getCurrentAnchorDistance (spring st) <
  getRestLength (spring st) ->
  step getCurrentAnchorDistance getAnchorDirectionUnitVector dt st =
  (Raise (assertion_failure "springForce >= 0.0"), st).
Proof.
  intros Hdt Hfree Hk Hlen.
  apply step_fails_with; [exact Hdt|].
  pose proof (calculateAndApplyForce_leaves dt st) as L. cbv zeta in L.
  assert (HF : getSpringForce getCurrentAnchorDistance (spring st) =
               Raise (assertion_failure "springForce >= 0.0")).
  { unfold getSpringForce. rewrite Hfree. cbn [negb].
    assert (Hneg : (- getCoefK (spring st)) *
                   (getCurrentSpringLength getCurrentAnchorDistance (spring st)
                    - getRestLength (spring st)) < 0) by nra.
    now rewrite (proj2 (DoubleFacts.leb_gt _ _) Hneg). }
  now rewrite HF in L.
Qed.

(** X9. For a positive stiffness the sign of the spring force is the sign
    of the compression: positive exactly when the spring is shorter than
    its rest length, zero exactly at the rest length, negative exactly when
    it is longer. *)
Theorem X9_force_sign (s : tgBulletUnidirectionalCompressionSpring) :
  0 < getCoefK s ->
  let length := getCurrentSpringLength getCurrentAnchorDistance s in
  exists F,
    getSpringForce getCurrentAnchorDistance s = Ok F /\
    (0 < F <-> length < getRestLength s) /\
    (F == 0 <-> length == getRestLength s) /\
    (F < 0 <-> getRestLength s < length).
Proof.
  intros Hk length. eexists. split; [now apply getSpringForce_returns|].
  fold length.
  destruct (Q_dec length (getRestLength s)) as [[Hlt|Hgt]|Heq];
    repeat split; intro H; nra.
Qed.

(** X10. The damping force opposes the estimated motion: after a call of
    [step] with a positive time step on a spring that satisfies the class
    invariant, a spring that got longer has a positive velocity and a damping
    force that is not positive, a spring that got shorter has a negative
    velocity and a damping force that is not negative, and a spring of
    unchanged length has both equal to zero. *)
Theorem X10_damping_opposes_motion (dt : double) (st : Sim) :
  invariant (spring st) = true ->
  0 < dt ->
  let s := spring st in
  let length := getCurrentSpringLength getCurrentAnchorDistance s in
  let prev := m_prevLength (base s) in
  let s' :=
    spring
      (snd (step getCurrentAnchorDistance getAnchorDirectionUnitVector dt st)) in
  (prev < length ->
   0 < m_velocity (base s') /\ m_dampingForce (base s') <= 0) /\
  (length < prev ->
   m_velocity (base s') < 0 /\ 0 <= m_dampingForce (base s')) /\
  (length == prev ->
   m_velocity (base s') == 0 /\ m_dampingForce (base s') == 0).
Proof.
  intros Hinv Hdt.
  destruct (invariant_elim _ Hinv) as (_ & Hd & _).
  pose proof (calculateAndApplyForce_total dt st Hinv) as Hok.
  cbv zeta. rewrite (step_state dt st Hdt Hok).
  rewrite (spring_after_force dt st Hinv). cbv zeta.
  cbn [m_velocity m_dampingForce base set_m_prevLength set_m_dampingForce
       set_m_velocity set_base].
  unfold getCoefD, Qdiv.
  pose proof (Qinv_lt_0_compat dt Hdt) as Hi.
  set (i := / dt) in *.
  set (len := getCurrentSpringLength getCurrentAnchorDistance (spring st)).
  set (prev := m_prevLength (base (spring st))).
  set (d := m_coefD (base (spring st))) in *.
  split; [|split]; intro H.
  - assert (Hv : 0 < (len - prev) * i) by (apply Qmult_lt_0_compat; lra).
    split; [exact Hv | nra].
  - assert (Hv : 0 < (prev - len) * i) by (apply Qmult_lt_0_compat; lra).
    split; nra.
  - split; rewrite H; ring.
Qed.

(** X11. A detached spring can pull.  Its spring force is never negative,
    but the magnitude it applies adds the damping force: when the spring is
    lengthening fast enough, [k * (restLength - length) * dt <
    d * (length - previousLength)], the applied magnitude is negative and the
    impulse on the first body is the unit vector scaled by that negative
    magnitude. *)
Theorem X11_detached_spring_can_pull (dt : double) (st : Sim) :
  invariant (spring st) = true ->
  0 < dt ->
  isFreeEndAttached (spring st) = false ->
  let s := spring st in
  let length := getCurrentSpringLength getCurrentAnchorDistance s in
  let st' :=
    snd (step getCurrentAnchorDistance getAnchorDirectionUnitVector dt st) in
  getCoefK s * (getRestLength s - length) * dt <
  getCoefD s * (length - m_prevLength (base s)) ->
  exists F a1,
    getSpringForce getCurrentAnchorDistance s = Ok F /\
    0 <= F /\
    F + m_dampingForce (base (spring st')) < 0 /\
    anchor1 (base s) = Some a1 /\
    In (applyImpulse (attachedBody a1)
          (Vec.scale
             (Vec.scale
                (getAnchorDirectionUnitVector
                   (anchor1 (base s)) (anchor2 (base s)))
                (F + m_dampingForce (base (spring st'))))
             dt)
          (getRelativePosition a1))
       (engine st').
Proof.
  intros Hinv Hdt Hfree. cbv zeta. intro Hfast.
  destruct (invariant_elim _ Hinv)
    as (Hk & Hd & _ & _ & [a1 H1] & [a2 H2] & _ & _).
  pose proof (getSpringForce_returns (spring st) Hk) as HF.
  pose proof (calculateAndApplyForce_total dt st Hinv) as Hok.
  pose proof (calculateAndApplyForce_returns dt st a1 a2 _ H1 H2 HF) as Hrun.
  cbv zeta in Hrun.
  rewrite (step_state dt st Hdt Hok), Hrun. cbn [snd spring engine].
  cbn [m_dampingForce base set_m_prevLength set_m_dampingForce
       set_m_velocity set_base].
  eexists. exists a1. split; [exact HF|].
  pose proof (detached_length_le_rest (spring st) Hfree) as Hle.
  change (0 < getCoefK (spring st)) in Hk.
  change (0 <= getCoefD (spring st)) in Hd.
  split; [nra|]. split.
  - unfold Qdiv.
    pose proof (Qinv_lt_0_compat dt Hdt) as Hi.
    assert (Hone : dt * / dt == 1) by (apply Qmult_inv_r; lra).
    set (i := / dt) in *.
    set (len := getCurrentSpringLength getCurrentAnchorDistance (spring st))
      in *.
    set (prev := m_prevLength (base (spring st))) in *.
    set (k := getCoefK (spring st)) in *.
    set (d := getCoefD (spring st)) in *.
    set (r := getRestLength (spring st)) in *.
    assert (Hscaled : 0 < (d * (len - prev) - k * (r - len) * dt) * i)
      by (apply Qmult_lt_0_compat; lra).
    assert (Hdist : (d * (len - prev) - k * (r - len) * dt) * i ==
                    d * ((len - prev) * i) - k * (r - len) * (dt * i)) by ring.
    rewrite Hdist, Hone in Hscaled. lra.
  - split; [exact H1|].
    apply in_or_app. right. right. left. reflexivity.
Qed.

(** X12. A slack spring at rest transmits nothing: when the free end is not
    attached, the anchors are at least the rest length apart and the
    previous length is the rest length, both impulses of [step] are zero;
    the two bodies are activated all the same. *)
Theorem X12_slack_spring_at_rest (dt : double) (st : Sim) :
  invariant (spring st) = true ->
  0 < dt ->
  isFreeEndAttached (spring st) = false ->
  getRestLength (spring st) <=
  getCurrentAnchorDistance (anchor1 (base (spring st)))
                           (anchor2 (base (spring st))) ->
  m_prevLength (base (spring st)) == getRestLength (spring st) ->
  exists a1 a2 impulse1 impulse2,
    anchor1 (base (spring st)) = Some a1 /\
    anchor2 (base (spring st)) = Some a2 /\
    engine
      (snd (step getCurrentAnchorDistance getAnchorDirectionUnitVector dt st)) =
    engine st ++
    [activate (attachedBody a1);
     applyImpulse (attachedBody a1) impulse1 (getRelativePosition a1);
     activate (attachedBody a2);
     applyImpulse (attachedBody a2) impulse2 (getRelativePosition a2)] /\
    Vec.eqv impulse1 (mkVector3 0 0 0) /\
    Vec.eqv impulse2 (mkVector3 0 0 0).
Proof.
  intros Hinv Hdt Hfree Hslack Hprev.
  destruct (invariant_elim _ Hinv)
    as (Hk & _ & _ & _ & [a1 H1] & [a2 H2] & _ & _).
  pose proof (getSpringForce_returns (spring st) Hk) as HF.
  pose proof (calculateAndApplyForce_total dt st Hinv) as Hok.
  pose proof (calculateAndApplyForce_returns dt st a1 a2 _ H1 H2 HF) as Hrun.
  cbv zeta in Hrun.
  rewrite (step_state dt st Hdt Hok), Hrun. cbn [snd engine].
  assert (Hlen : getCurrentSpringLength getCurrentAnchorDistance (spring st) =
                 getRestLength (spring st)).
  { unfold getCurrentSpringLength. rewrite Hfree.
    now rewrite (proj2 (DoubleFacts.ltb_ge _ _) Hslack). }
  exists a1, a2. eexists. eexists.
  split; [exact H1|]. split; [exact H2|]. split; [reflexivity|].
  rewrite Hlen. unfold Vec.eqv, Vec.neg, Vec.scale, Qdiv. cbn [vx vy vz].
  rewrite Hprev. repeat split; ring.
Qed.

End Properties.

(** ** The direction of the spring and its length *)

(** C2. [getCurrentAnchorDistanceAlongDirection] is the dot product of the
    vector from anchor1 to anchor2 with the direction, a signed quantity: 4
    for the oblique spring pointing up and -4 for the same spring pointing
    down.  [getCurrentSpringLength] does not apply its policy to it: it reads
    [getCurrentAnchorDistance()], so the length of a spring is the same
    whatever its direction, and is 5 for the oblique spring when that
    distance is the straight-line one. *)
Theorem C2_length_ignores_direction :
  getCurrentAnchorDistanceAlongDirection (Scenario.oblique Scenario.up) = Ok 4 /\
  getCurrentAnchorDistanceAlongDirection (Scenario.oblique Scenario.down) =
    Ok (- 4) /\
  (forall (getCurrentAnchorDistance :
             option tgBulletSpringCableAnchor ->
             option tgBulletSpringCableAnchor -> double)
          (b : tgBulletCompressionSpring) (d1 d2 : option btVector3),
     getCurrentSpringLength getCurrentAnchorDistance (mkSpring b d1) =
     getCurrentSpringLength getCurrentAnchorDistance (mkSpring b d2)) /\
  Scenario.length_of (Scenario.oblique Scenario.up) = 5 /\
  Scenario.length_of (Scenario.oblique Scenario.down) = 5.
Proof.
  repeat split; try (vm_compute; reflexivity).
Qed.

(** ** The policy table and the distance along the direction *)

(** C1. The policy table is not applied to the axial distance, the distance
    between the anchors along the direction of the spring, but to the
    distance [getCurrentSpringLength] reads from
    [getCurrentAnchorDistance()], the straight-line one here.  Row 1: the
    attached oblique spring has axial distance 4 and length 5.  Row 2: the
    detached leaning spring has axial distance 0.8, below its rest length 1,
    and yet its length is the rest length and its force is zero, where the
    table gives length 0.8 (and the force law then 20).  And whatever the
    base class computes from the two anchors, row 1 cannot hold for every
    spring: the oblique spring has the same length pointing up and pointing
    down, and axial distances 4 and -4. *)
Theorem C1_policy_is_not_on_the_axial_distance :
  (isFreeEndAttached (Scenario.oblique Scenario.up) = true /\
   getCurrentAnchorDistanceAlongDirection (Scenario.oblique Scenario.up) =
     Ok 4 /\
   Scenario.length_of (Scenario.oblique Scenario.up) = 5) /\
  (isFreeEndAttached Scenario.leaning = false /\
   (exists axial,
      getCurrentAnchorDistanceAlongDirection Scenario.leaning = Ok axial /\
      axial == 0.8 /\ axial < getRestLength Scenario.leaning) /\
   Scenario.length_of Scenario.leaning = getRestLength Scenario.leaning /\
   getRestLength Scenario.leaning = 1 /\
   (exists F, Scenario.force_of Scenario.leaning = Ok F /\ F == 0)) /\
  (forall getCurrentAnchorDistance :
            option tgBulletSpringCableAnchor ->
            option tgBulletSpringCableAnchor -> double,
     ~ (forall (s : tgBulletUnidirectionalCompressionSpring) (axial : double),
          isFreeEndAttached s = true ->
          getCurrentAnchorDistanceAlongDirection s = Ok axial ->
          getCurrentSpringLength getCurrentAnchorDistance s == axial)).
Proof.
  split; [|split].
  - repeat split; vm_compute; reflexivity.
  - split; [reflexivity|]. split.
    + eexists. split; [reflexivity|]. split; eval_closed.
    + split; [vm_compute; reflexivity|]. split; [reflexivity|].
      eexists. split; [reflexivity|]. eval_closed.
  - intros g Hrow.
    pose proof (Hrow (Scenario.oblique Scenario.up) 4 eq_refl eq_refl) as Hup.
    pose proof (Hrow (Scenario.oblique Scenario.down) (- 4) eq_refl eq_refl)
      as Hdown.
    change (getCurrentSpringLength g (Scenario.oblique Scenario.down))
      with (getCurrentSpringLength g (Scenario.oblique Scenario.up)) in Hdown.
    rewrite Hup in Hdown. discriminate Hdown.
Qed.


(** ** The properties on the scenarios *)

(** The force law on the compressed spring: stiffness 100, rest length 1,
    length 0.8, force 20. *)
Lemma C3_spring_force_law_witness :
  0 < getCoefK Scenario.compressed /\
  Scenario.length_of Scenario.compressed < getRestLength Scenario.compressed /\
  exists F, Scenario.force_of Scenario.compressed = Ok F /\ F == 20 /\ 0 < F.
Proof.
  split; [eval_closed|]. split; [eval_closed|].
  destruct (C3_spring_force_law StraightLine.getCurrentAnchorDistance
              Scenario.compressed) as (HF & Hpos & _); [eval_closed|].
  eexists. split; [exact HF|]. split; [eval_closed|].
  apply Hpos. eval_closed.
Defined.

(** Two consecutive steps of 0.01 with the length going from 0.8 to 0.7 and
    damping 5: the velocity is -10 and the damping force 50. *)
Lemma C4_velocity_and_damping_witness :
  invariant (spring Scenario.closing) = true /\
  0 < Scenario.dt /\
  m_prevLength (base (spring Scenario.closing)) == 0.8 /\
  Scenario.length_of (spring Scenario.closing) == 0.7 /\
  fst (Scenario.apply_force Scenario.dt Scenario.closing) = Ok tt /\
  m_velocity
    (base (spring (snd (Scenario.apply_force Scenario.dt Scenario.closing)))) ==
  - 10 /\
  m_dampingForce
    (base (spring (snd (Scenario.apply_force Scenario.dt Scenario.closing)))) ==
  50.
Proof.
  assert (Hinv : invariant (spring Scenario.closing) = true) by eval_closed.
  assert (Hdt : 0 < Scenario.dt) by eval_closed.
  assert (Hprev : m_prevLength (base (spring Scenario.closing)) == 0.8)
    by eval_closed.
  assert (Hlen : Scenario.length_of (spring Scenario.closing) == 0.7)
    by eval_closed.
  destruct (C4_velocity_and_damping
              StraightLine.getCurrentAnchorDistance
              StraightLine.getAnchorDirectionUnitVector
              Scenario.dt Scenario.closing Hinv Hdt)
    as (Hok & Hvel & _ & _ & Hex).
  repeat (split; [assumption|]).
  split.
  - unfold Scenario.apply_force. rewrite Hvel. eval_closed.
  - apply Hex; try assumption; eval_closed.
Defined.

(** One step of 0.01 on the damped spring: the two bodies get the impulses
    (0, 1.2, 0) and (0, -1.2, 0). *)
Lemma C5_impulses_are_opposite_witness :
  invariant (spring Scenario.damped) = true /\
  0 < Scenario.dt /\
  exists impulse1 impulse2,
    engine (snd (Scenario.do_step Scenario.dt Scenario.damped)) =
      [activate 1%nat; applyImpulse 1%nat impulse1 Scenario.origin;
       activate 2%nat; applyImpulse 2%nat impulse2 Scenario.origin] /\
    impulse2 = Vec.neg impulse1 /\
    Vec.eqv impulse1 (mkVector3 0 1.2 0).
Proof.
  assert (Hinv : invariant (spring Scenario.damped) = true) by eval_closed.
  assert (Hdt : 0 < Scenario.dt) by eval_closed.
  split; [exact Hinv|]. split; [exact Hdt|].
  destruct (C5_impulses_are_opposite
              StraightLine.getCurrentAnchorDistance
              StraightLine.getAnchorDirectionUnitVector
              Scenario.dt Scenario.damped Hinv Hdt)
    as (a1 & a2 & F & i1 & i2 & H1 & H2 & HF & Heng & Hi1 & Hi2 & _).
  cbn in H1, H2. injection H1 as <-. injection H2 as <-.
  exists i1, i2. split; [exact Heng|]. split; [exact Hi2|].
  vm_compute in HF. injection HF as <-.
  rewrite Hi1. vm_compute. repeat split.
Defined.

(** [step(0)] and [step(-0.5)] on the damped spring. *)
Lemma C6_nonpositive_dt_rejected_witness :
  0 <= 0 /\
  Scenario.do_step 0 Scenario.damped =
    (Raise (invalid_argument "dt is not positive!"), Scenario.damped) /\
  - 0.5 <= 0 /\
  Scenario.do_step (- 0.5) Scenario.damped =
    (Raise (invalid_argument "dt is not positive!"), Scenario.damped).
Proof.
  assert (H0 : 0 <= 0) by eval_closed.
  assert (Hneg : - 0.5 <= 0) by eval_closed.
  split; [exact H0|]. split; [|split; [exact Hneg|]].
  - exact (C6_nonpositive_dt_rejected
             StraightLine.getCurrentAnchorDistance
             StraightLine.getAnchorDirectionUnitVector 0 Scenario.damped H0).
  - exact (C6_nonpositive_dt_rejected
             StraightLine.getCurrentAnchorDistance
             StraightLine.getAnchorDirectionUnitVector (- 0.5) Scenario.damped
             Hneg).
Defined.


(** The detached springs of the scenarios push: 20 when compressed, 0 when
    slack. *)
Lemma C8_detached_spring_only_pushes_witness :
  0 < getCoefK Scenario.compressed /\
  isFreeEndAttached Scenario.compressed = false /\
  (exists F, Scenario.force_of Scenario.compressed = Ok F /\ 0 <= F) /\
  (exists F, Scenario.force_of Scenario.slack = Ok F /\ 0 <= F).
Proof.
  split; [eval_closed|]. split; [reflexivity|]. split.
  - apply (C8_detached_spring_only_pushes
             StraightLine.getCurrentAnchorDistance Scenario.compressed);
      eval_closed.
  - apply (C8_detached_spring_only_pushes
             StraightLine.getCurrentAnchorDistance Scenario.slack);
      eval_closed.
Defined.

(** A spring is constructed, stepped, moved by the engine and stepped again. *)
Lemma C9_invariant_holds_witness :
  new_tgBulletUnidirectionalCompressionSpring
    StraightLine.tgBulletCompressionSpring_ctor
    [Some (Scenario.anchor_at 1%nat Scenario.origin);
     Some (Scenario.anchor_at 2%nat (mkVector3 0 0.8 0))]
    false 100 5 1 (Some Scenario.up) = Ok (spring Scenario.damped) /\
  invariant (spring Scenario.damped) = true /\
  invariant (spring Scenario.stepped) = true /\
  invariant (spring Scenario.closing) = true /\
  invariant
    (spring (snd (Scenario.do_step Scenario.dt Scenario.closing))) = true.
Proof.
  assert (Hnew : new_tgBulletUnidirectionalCompressionSpring
            StraightLine.tgBulletCompressionSpring_ctor
            [Some (Scenario.anchor_at 1%nat Scenario.origin);
             Some (Scenario.anchor_at 2%nat (mkVector3 0 0.8 0))]
            false 100 5 1 (Some Scenario.up) = Ok (spring Scenario.damped))
    by eval_closed.
  pose (reach := reachable StraightLine.getCurrentAnchorDistance
                   StraightLine.getAnchorDirectionUnitVector
                   StraightLine.tgBulletCompressionSpring_ctor).
  assert (R0 : reach Scenario.damped).
  { change Scenario.damped with (mkSim (spring Scenario.damped) []).
    eapply reach_new. exact Hnew. }
  assert (R1 : reach Scenario.stepped)
    by (apply (reach_step _ _ _ Scenario.dt Scenario.damped R0); eval_closed).
  assert (R2 : reach Scenario.closing) by exact (reach_engine _ _ _ _ _ R1).
  assert (R3 : reach (snd (Scenario.do_step Scenario.dt Scenario.closing)))
    by (apply (reach_step _ _ _ Scenario.dt Scenario.closing R2); eval_closed).
  split; [exact Hnew|].
  split; [exact (C9_invariant_holds _ _ _ _ R0)|].
  split; [exact (C9_invariant_holds _ _ _ _ R1)|].
  split; [exact (C9_invariant_holds _ _ _ _ R2)|].
  exact (C9_invariant_holds _ _ _ _ R3).
Defined.

(** A step on the collapsed spring throws, having applied (null) impulses
    and replaced the previous length 1 by 0. *)
Lemma C10_fatal_error_is_not_atomic_witness :
  fst (Scenario.do_step Scenario.dt Scenario.collapsed) =
    Raise (runtime_error negative_length_message) /\
  m_prevLength (base (spring Scenario.collapsed)) = 1 /\
  m_prevLength
    (base (spring (snd (Scenario.do_step Scenario.dt Scenario.collapsed)))) = 0 /\
  List.length (engine Scenario.collapsed) = 0%nat /\
  List.length
    (engine (snd (Scenario.do_step Scenario.dt Scenario.collapsed))) = 4%nat /\
  snd (Scenario.do_step Scenario.dt Scenario.collapsed) <> Scenario.collapsed.
Proof.
  assert (Hfatal : fst (Scenario.do_step Scenario.dt Scenario.collapsed) =
                   Raise (runtime_error negative_length_message))
    by eval_closed.
  destruct (C10_fatal_error_is_not_atomic
              StraightLine.getCurrentAnchorDistance
              StraightLine.getAnchorDirectionUnitVector
              Scenario.dt Scenario.collapsed _ Hfatal)
    as (_ & (a1 & a2 & impulse & _ & _ & Heng) & Hprev & Hneq).
  split; [exact Hfatal|]. split; [reflexivity|].
  split; [unfold Scenario.do_step; rewrite Hprev; eval_closed|].
  split; [reflexivity|].
  split; [unfold Scenario.do_step; rewrite Heng; reflexivity|].
  exact Hneq.
Defined.

(** The compressed spring (length 0.8, force 20) and the slack one (length 1,
    force 0). *)
Lemma X1_spring_force_monotone_witness :
  0 < getCoefK Scenario.compressed /\
  Scenario.length_of Scenario.compressed <= Scenario.length_of Scenario.slack /\
  exists F1 F2,
    Scenario.force_of Scenario.compressed = Ok F1 /\
    Scenario.force_of Scenario.slack = Ok F2 /\
    F2 <= F1.
Proof.
  split; [eval_closed|]. split; [eval_closed|].
  apply (X1_spring_force_monotone StraightLine.getCurrentAnchorDistance
           Scenario.compressed Scenario.slack); eval_closed.
Defined.

(** The three outcomes on the damped spring, on a time step of 0.01. *)
Lemma X2_step_outcomes_witness :
  invariant (spring Scenario.damped) = true /\
  (fst (Scenario.do_step Scenario.dt Scenario.damped) = Ok tt \/
   fst (Scenario.do_step Scenario.dt Scenario.damped) =
     Raise (invalid_argument "dt is not positive!") \/
   fst (Scenario.do_step Scenario.dt Scenario.damped) =
     Raise (runtime_error negative_length_message)).
Proof.
  assert (Hinv : invariant (spring Scenario.damped) = true) by eval_closed.
  split; [exact Hinv|].
  exact (X2_step_outcomes StraightLine.getCurrentAnchorDistance
           StraightLine.getAnchorDirectionUnitVector
           Scenario.dt Scenario.damped Hinv).
Defined.

(** The spring of rest length 0, its anchors 0.8 apart. *)
Lemma X3_zero_rest_length_is_fatal_witness :
  invariant (spring Scenario.restless) = true /\
  isFreeEndAttached (spring Scenario.restless) = false /\
  getRestLength (spring Scenario.restless) == 0 /\
  0 < Scenario.dt /\
  fst (Scenario.do_step Scenario.dt Scenario.restless) =
    Raise (runtime_error negative_length_message).
Proof.
  assert (Hinv : invariant (spring Scenario.restless) = true) by eval_closed.
  assert (Hrest : getRestLength (spring Scenario.restless) == 0) by eval_closed.
  assert (Hdt : 0 < Scenario.dt) by eval_closed.
  split; [exact Hinv|]. split; [reflexivity|].
  split; [exact Hrest|]. split; [exact Hdt|].
  exact (X3_zero_rest_length_is_fatal
           StraightLine.getCurrentAnchorDistance
           StraightLine.getAnchorDirectionUnitVector
           Scenario.dt Scenario.restless Hinv eq_refl Hrest Hdt).
Defined.

(** Two steps of 0.01 on the damped spring, its anchors staying 0.8 apart. *)
Lemma X6_still_spring_is_undamped_witness :
  invariant (spring Scenario.damped) = true /\
  0 < Scenario.dt /\
  fst (Scenario.do_step Scenario.dt Scenario.damped) = Ok tt /\
  fst (Scenario.do_step Scenario.dt Scenario.stepped) = Ok tt /\
  m_velocity
    (base (spring (snd (Scenario.do_step Scenario.dt Scenario.stepped)))) == 0 /\
  m_dampingForce
    (base (spring (snd (Scenario.do_step Scenario.dt Scenario.stepped)))) == 0.
Proof.
  assert (Hinv : invariant (spring Scenario.damped) = true) by eval_closed.
  assert (Hdt : 0 < Scenario.dt) by eval_closed.
  assert (Hret : fst (Scenario.do_step Scenario.dt Scenario.damped) = Ok tt)
    by eval_closed.
  destruct (X6_still_spring_is_undamped
              StraightLine.getCurrentAnchorDistance
              StraightLine.getAnchorDirectionUnitVector
              Scenario.dt Scenario.dt Scenario.damped Hinv Hdt Hdt Hret)
    as (Hret2 & Hv & Hd & _).
  repeat (split; [assumption|]). exact Hd.
Defined.

(** A step on the compressed spring of stiffness -100. *)
Lemma X7_failed_assertion_changes_nothing_witness :
  0 < Scenario.dt /\
  isFreeEndAttached (spring Scenario.negative_stiffness) = false /\
  getCoefK (spring Scenario.negative_stiffness) < 0 /\
  Scenario.length_of (spring Scenario.negative_stiffness) <
  getRestLength (spring Scenario.negative_stiffness) /\
  Scenario.do_step Scenario.dt Scenario.negative_stiffness =
  (Raise (assertion_failure "springForce >= 0.0"), Scenario.negative_stiffness).
Proof.
  assert (Hdt : 0 < Scenario.dt) by eval_closed.
  assert (Hk : getCoefK (spring Scenario.negative_stiffness) < 0)
    by eval_closed.
  assert (Hlen : Scenario.length_of (spring Scenario.negative_stiffness) <
                 getRestLength (spring Scenario.negative_stiffness))
    by eval_closed.
  split; [exact Hdt|]. split; [reflexivity|].
  split; [exact Hk|]. split; [exact Hlen|].
  exact (X7_failed_assertion_changes_nothing
           StraightLine.getCurrentAnchorDistance
           StraightLine.getAnchorDirectionUnitVector
           Scenario.dt Scenario.negative_stiffness Hdt eq_refl Hk Hlen).
Defined.

(** The compressed spring pushes, the extended one pulls. *)
Lemma X9_force_sign_witness :
  0 < getCoefK Scenario.compressed /\
  0 < getCoefK Scenario.extended /\
  (exists F, Scenario.force_of Scenario.compressed = Ok F /\ 0 < F) /\
  (exists F, Scenario.force_of Scenario.extended = Ok F /\ F < 0).
Proof.
  assert (Hk1 : 0 < getCoefK Scenario.compressed) by eval_closed.
  assert (Hk2 : 0 < getCoefK Scenario.extended) by eval_closed.
  split; [exact Hk1|]. split; [exact Hk2|]. split.
  - destruct (X9_force_sign StraightLine.getCurrentAnchorDistance
                Scenario.compressed Hk1) as (F & HF & Hpos & _ & _).
    exists F. split; [exact HF|]. apply Hpos. eval_closed.
  - destruct (X9_force_sign StraightLine.getCurrentAnchorDistance
                Scenario.extended Hk2) as (F & HF & _ & _ & Hneg).
    exists F. split; [exact HF|]. apply Hneg. eval_closed.
Defined.

(** The closing spring (0.8 to 0.7): negative velocity, damping that pushes
    back. *)
Lemma X10_damping_opposes_motion_witness :
  invariant (spring Scenario.closing) = true /\
  0 < Scenario.dt /\
  Scenario.length_of (spring Scenario.closing) <
  m_prevLength (base (spring Scenario.closing)) /\
  m_velocity
    (base (spring (snd (Scenario.do_step Scenario.dt Scenario.closing)))) < 0 /\
  0 <= m_dampingForce
         (base (spring (snd (Scenario.do_step Scenario.dt Scenario.closing)))).
Proof.
  assert (Hinv : invariant (spring Scenario.closing) = true) by eval_closed.
  assert (Hdt : 0 < Scenario.dt) by eval_closed.
  assert (Hlen : Scenario.length_of (spring Scenario.closing) <
                 m_prevLength (base (spring Scenario.closing)))
    by eval_closed.
  split; [exact Hinv|]. split; [exact Hdt|]. split; [exact Hlen|].
  exact (proj1 (proj2 (X10_damping_opposes_motion
                         StraightLine.getCurrentAnchorDistance
                         StraightLine.getAnchorDirectionUnitVector
                         Scenario.dt Scenario.closing Hinv Hdt)) Hlen).
Defined.

(** The opening spring (0.8 to 0.9 in 0.01, damping 5): spring force 10,
    damping force -50. *)
Lemma X11_detached_spring_can_pull_witness :
  invariant (spring Scenario.opening) = true /\
  0 < Scenario.dt /\
  isFreeEndAttached (spring Scenario.opening) = false /\
  exists F,
    Scenario.force_of (spring Scenario.opening) = Ok F /\
    0 <= F /\
    F + m_dampingForce
          (base (spring (snd (Scenario.do_step Scenario.dt Scenario.opening))))
    < 0.
Proof.
  assert (Hinv : invariant (spring Scenario.opening) = true) by eval_closed.
  assert (Hdt : 0 < Scenario.dt) by eval_closed.
  split; [exact Hinv|]. split; [exact Hdt|]. split; [reflexivity|].
  destruct (X11_detached_spring_can_pull
              StraightLine.getCurrentAnchorDistance
              StraightLine.getAnchorDirectionUnitVector
              Scenario.dt Scenario.opening Hinv Hdt eq_refl)
    as (F & a1 & HF & Hpos & Hneg & _); [eval_closed|].
  exists F. split; [exact HF|]. split; [exact Hpos | exact Hneg].
Defined.

(** The resting spring, its anchors 1.5 apart. *)
Lemma X12_slack_spring_at_rest_witness :
  invariant (spring Scenario.resting) = true /\
  0 < Scenario.dt /\
  isFreeEndAttached (spring Scenario.resting) = false /\
  exists impulse1 impulse2,
    engine (snd (Scenario.do_step Scenario.dt Scenario.resting)) =
    [activate 1%nat; applyImpulse 1%nat impulse1 Scenario.origin;
     activate 2%nat; applyImpulse 2%nat impulse2 Scenario.origin] /\
    Vec.eqv impulse1 (mkVector3 0 0 0) /\
    Vec.eqv impulse2 (mkVector3 0 0 0).
Proof.
  assert (Hinv : invariant (spring Scenario.resting) = true) by eval_closed.
  assert (Hdt : 0 < Scenario.dt) by eval_closed.
  split; [exact Hinv|]. split; [exact Hdt|]. split; [reflexivity|].
  destruct (X12_slack_spring_at_rest
              StraightLine.getCurrentAnchorDistance
              StraightLine.getAnchorDirectionUnitVector
              Scenario.dt Scenario.resting Hinv Hdt eq_refl)
    as (a1 & a2 & i1 & i2 & H1 & H2 & Heng & Hz1 & Hz2);
    [eval_closed | eval_closed |].
  cbn in H1, H2. injection H1 as <-. injection H2 as <-.
  exists i1, i2. split; [exact Heng|]. split; [exact Hz1 | exact Hz2].
Defined.

(** * The structure of PrismModel *)

Section PrismFacts.

Import PrismModel.
Local Open Scope Z_scope.

Variable cos sin asin sqrt : double -> double.
Variable pow : double -> double -> double.

(** ** Counting nodes and pairs *)

Lemma node_count_app (s1 s2 : tgStructure) :
  node_count (s1 ++ s2) = node_count s1 + node_count s2.
Proof.
  induction s1 as [|c s1 IH]; [reflexivity|].
  destruct c; cbn [app node_count]; rewrite IH; lia.
Qed.

Lemma node_count_nonneg (s : tgStructure) : 0 <= node_count s.
Proof.
  induction s as [|c s IH]; [reflexivity|].
  destruct c; cbn [node_count]; lia.
Qed.

Lemma pairs_app (s1 s2 : tgStructure) :
  pairs (s1 ++ s2) = (pairs s1 ++ pairs s2)%list.
Proof.
  induction s1 as [|c s1 IH]; [reflexivity|].
  destruct c; cbn [app pairs]; now rewrite IH.
Qed.

Lemma pairs_in_range_app (n : Z) (s1 s2 : tgStructure) :
  pairs_in_range n (s1 ++ s2) =
  pairs_in_range n s1 && pairs_in_range (n + node_count s1) s2.
Proof.
  revert n. induction s1 as [|c s1 IH]; intro n.
  - cbn. now rewrite Z.add_0_r.
  - destruct c; cbn [app pairs_in_range node_count]; rewrite IH.
    + f_equal. f_equal. lia.
    + now rewrite !andb_assoc.
    + reflexivity.
    + reflexivity.
Qed.

Lemma zseq_length (i : Z) (n : nat) : List.length (zseq i n) = n.
Proof.
  revert i. induction n as [|n IH]; intro i; [reflexivity|].
  cbn. now rewrite IH.
Qed.

Lemma zseq_In (i k : Z) (n : nat) :
  In k (zseq i n) <-> i <= k < i + Z.of_nat n.
Proof.
  revert i. induction n as [|n IH]; intro i.
  - cbn. lia.
  - cbn [zseq In]. rewrite IH. lia.
Qed.

Lemma zseq_shift (i d : Z) (n : nat) :
  zseq (d + i) n = List.map (Z.add d) (zseq i n).
Proof.
  revert i. induction n as [|n IH]; intro i; [reflexivity|].
  cbn [zseq List.map]. f_equal. rewrite <- IH. f_equal. lia.
Qed.

(** A loop whose body makes one call makes the calls of its indices, in
    order. *)
Lemma iterate_calls (c : Z -> StructureCall)
    (body : Z -> tgStructure -> tgStructure) :
  (forall i s, body i s = s ++ [c i])%list ->
  forall (n : nat) (i : Z) (s : tgStructure),
    iterate n i body s = (s ++ List.map c (zseq i n))%list.
Proof.
  intros Hbody. induction n as [|n IH]; intros i s.
  - cbn. now rewrite app_nil_r.
  - cbn [iterate zseq List.map]. rewrite IH, Hbody, <- app_assoc. reflexivity.
Qed.

Lemma node_count_nodes (f : Z -> StructureCall) (l : list Z) :
  (forall k, exists x y z, f k = addNode x y z) ->
  node_count (List.map f l) = Z.of_nat (List.length l) /\
  pairs (List.map f l) = [] /\
  forall n, pairs_in_range n (List.map f l) = true.
Proof.
  intro Hf. induction l as [|k l IH].
  - repeat split.
  - destruct (Hf k) as (x & y & z & E). destruct IH as (IH1 & IH2 & IH3).
    cbn [List.map List.length]. rewrite E. cbn [node_count pairs pairs_in_range].
    repeat split; [lia | exact IH2 | intro n; apply IH3].
Qed.

Lemma node_count_pairs (a b : Z -> Z) (tags : string) (l : list Z) :
  node_count (List.map (fun k => addPair (a k) (b k) tags) l) = 0 /\
  pairs (List.map (fun k => addPair (a k) (b k) tags) l) =
  List.map (fun k => (a k, b k, tags)) l.
Proof.
  induction l as [|k l [IH1 IH2]]; [split; reflexivity|].
  cbn [List.map node_count pairs]. now rewrite IH2.
Qed.

Lemma pairs_in_range_pairs (n : Z) (a b : Z -> Z) (tags : string)
    (l : list Z) :
  (forall k, In k l -> 0 <= a k < n /\ 0 <= b k < n) ->
  pairs_in_range n (List.map (fun k => addPair (a k) (b k) tags) l) = true.
Proof.
  induction l as [|k l IH]; intro H; [reflexivity|].
  cbn [List.map pairs_in_range].
  destruct (H k (or_introl eq_refl)) as [Ha Hb].
  rewrite IH by (intros k' Hk'; apply H; now right).
  rewrite (proj2 (Z.leb_le 0 (a k))), (proj2 (Z.ltb_lt (a k) n)),
          (proj2 (Z.leb_le 0 (b k))), (proj2 (Z.ltb_lt (b k) n)) by lia.
  reflexivity.
Qed.

(** ** addRing *)

(** The calls of [addRing]: the nodes, then the pairs, the last pair closing
    the ring. *)
Lemma addRing_calls (s : tgStructure) (radius : double) (nPts pointOffset : Z) :
  fst (addRing cos sin s radius nPts pointOffset) =
  ((s ++
    List.map
      (fun i =>
         addNode (radius * cos (inject_Z (i * 2) * PI / inject_Z nPts))%Q
                 (radius * sin (inject_Z (i * 2) * PI / inject_Z nPts))%Q
                 0%Q)
      (zseq 0 (Z.to_nat nPts))) ++
   List.map
     (fun k =>
        addPair (pointOffset + k)
                (if pointOffset + k =? pointOffset + nPts - 1
                 then pointOffset else pointOffset + k + 1)
                "gimbal")
     (zseq 0 (Z.to_nat nPts)))%list.
Proof.
  unfold addRing, for_loop. cbn [fst].
  rewrite (iterate_calls
             (fun i =>
                addPair i (if i =? pointOffset + nPts - 1
                           then pointOffset else i + 1) "gimbal"))
    by (intros i s0; now destruct (i =? pointOffset + nPts - 1)).
  rewrite (iterate_calls
             (fun i =>
                addNode (radius * cos (inject_Z (i * 2) * PI / inject_Z nPts))%Q
                        (radius * sin (inject_Z (i * 2) * PI / inject_Z nPts))%Q
                        0%Q))
    by reflexivity.
  rewrite Z.sub_0_r.
  replace (pointOffset + nPts - pointOffset) with nPts by lia.
  replace pointOffset with (pointOffset + 0) at 1 by lia.
  rewrite zseq_shift, map_map. reflexivity.
Qed.

(** The nodes of [addRing] are counted, for a count that is not negative. *)
Lemma addRing_node_count (s : tgStructure) (radius : double)
    (nPts pointOffset : Z) :
  0 <= nPts ->
  node_count (fst (addRing cos sin s radius nPts pointOffset)) =
  node_count s + nPts.
Proof.
  intro HnPts. rewrite addRing_calls.
  destruct (node_count_nodes
              (fun i =>
                 addNode
                   (radius * cos (inject_Z (i * 2) * PI / inject_Z nPts))%Q
                   (radius * sin (inject_Z (i * 2) * PI / inject_Z nPts))%Q
                   0%Q)
              (zseq 0 (Z.to_nat nPts)))
    as (Hn & _ & _); [intro k; now eexists _, _, _|].
  destruct (node_count_pairs
              (fun k => pointOffset + k)
              (fun k => if pointOffset + k =? pointOffset + nPts - 1
                        then pointOffset else pointOffset + k + 1)
              "gimbal" (zseq 0 (Z.to_nat nPts))) as (Hn' & _).
  rewrite !node_count_app, Hn, Hn', zseq_length. lia.
Qed.

(** Called with the number of nodes as its offset, [addRing] only joins
    nodes that exist. *)
Lemma addRing_in_range (s : tgStructure) (radius : double)
    (nPts pointOffset : Z) :
  pairs_in_range 0 s = true ->
  pointOffset = node_count s ->
  0 <= nPts ->
  pairs_in_range 0 (fst (addRing cos sin s radius nPts pointOffset)) = true.
Proof.
  intros Hs Hoff HnPts.
  pose proof (node_count_nonneg s) as Hn.
  rewrite addRing_calls.
  destruct (node_count_nodes
              (fun i =>
                 addNode
                   (radius * cos (inject_Z (i * 2) * PI / inject_Z nPts))%Q
                   (radius * sin (inject_Z (i * 2) * PI / inject_Z nPts))%Q
                   0%Q)
              (zseq 0 (Z.to_nat nPts)))
    as (Hc & _ & Hr); [intro k; now eexists _, _, _|].
  rewrite !pairs_in_range_app, node_count_app, Hs, Hr, Hc, zseq_length.
  cbn [andb]. apply pairs_in_range_pairs.
  intros k Hk. apply zseq_In in Hk.
  destruct (Z.eqb_spec (pointOffset + k) (pointOffset + nPts - 1)); lia.
Qed.


(** ** The numbering of the nodes *)

Ltac in_range :=
  cbn [pairs_in_range node_count app fst snd];
  rewrite ?andb_true_iff, ?Z.leb_le, ?Z.ltb_lt;
  repeat split; lia.

(** X15. The builders keep the numbering of the nodes.  On a structure
    whose pairs all name existing nodes, with the offset equal to the number
    of nodes, [addRobot], [addRing] with [nPts >= 0], [addBottomStructure],
    [addThruster] and [makeLinks] leave a structure whose pairs all name
    existing nodes and an offset equal to the new number of nodes, and
    [addStrings] leaves such a structure with the same nodes.  This for
    arguments such that the integers a builder computes fit an [int], the
    node indices that [addThruster], [makeLinks] and [addStrings] receive
    being those of existing nodes. *)
Theorem X15_builders_keep_the_numbering (s : tgStructure) (offset : Z) :
  pairs_in_range 0 s = true ->
  offset = node_count s ->
  let numbered (built : tgStructure * Z) :=
    pairs_in_range 0 (fst built) = true /\
    snd built = node_count (fst built) in
  (forall tankToOuterRing,
     offset + 12 <= INT_MAX ->
     numbered (addRobot cos sin asin sqrt pow s offset tankToOuterRing)) /\
  (forall radius nPts,
     0 <= nPts ->
     2 * (nPts - 1) <= INT_MAX ->
     offset + nPts <= INT_MAX ->
     numbered (addRing cos sin s radius nPts offset)) /\
  (forall extRadius payLength tankToOuterRing,
     offset + 2 <= INT_MAX ->
     numbered (addBottomStructure s extRadius payLength tankToOuterRing
                                  offset)) /\
  (forall nExt gimbalStart,
     offset + 3 <= INT_MAX ->
     0 <= gimbalStart + nExt < offset ->
     numbered (addThruster s nExt offset gimbalStart)) /\
  (forall extRadius intRadius tankToOuterRing tankRadius
          pointOffset1 baseStartLink gimbalStart,
     offset + 4 <= INT_MAX ->
     INT_MIN <= 3 * pointOffset1 <= INT_MAX ->
     0 <= gimbalStart < offset ->
     0 <= gimbalStart + pointOffset1 < offset ->
     0 <= gimbalStart + Z.quot (3 * pointOffset1) 4 < offset ->
     0 <= baseStartLink < offset ->
     numbered (makeLinks s extRadius intRadius tankToOuterRing tankRadius
                         pointOffset1 offset baseStartLink gimbalStart)) /\
  (forall baseStartLink nPtBeforeRobot,
     offset <= INT_MAX ->
     0 <= nPtBeforeRobot -> nPtBeforeRobot + 11 < offset ->
     0 <= baseStartLink -> baseStartLink + 1 < offset ->
     numbered (addStrings s baseStartLink nPtBeforeRobot, offset)).
Proof.
  intros Hs Hoff. cbv zeta.
  pose proof (node_count_nonneg s) as Hn.
  split; [|split; [|split; [|split; [|split]]]].
  - intros t _. unfold addRobot, addActuators, addRods, addNodes. cbn [fst snd].
    rewrite !pairs_in_range_app, !node_count_app, Hs. split; in_range.
  - intros radius nPts HnPts _ _. split.
    + now apply addRing_in_range.
    + rewrite (addRing_node_count s radius nPts offset HnPts).
      cbn [addRing snd]. lia.
  - intros e p t _. unfold addBottomStructure. cbn [fst snd].
    rewrite !pairs_in_range_app, !node_count_app, Hs. split; in_range.
  - intros nExt gimbalStart _ Hg. unfold addThruster. cbn [fst snd].
    rewrite !pairs_in_range_app, !node_count_app, Hs. split; in_range.
  - intros e i t r p1 bsl gs _ _ H1 H2 H3 H4. unfold makeLinks. cbn [fst snd].
    rewrite !pairs_in_range_app, !node_count_app, Hs. split; in_range.
  - intros bsl before _ H1 H2 H3 H4. unfold addStrings. cbn [fst snd].
    rewrite !pairs_in_range_app, !node_count_app, Hs. split; in_range.
Qed.

(** ** The robot *)

(** Counting the pairs that end at a node does not depend on where the
    numbering starts. *)
Lemma degree_shift (tags : string) (offset j : Z) (l : list (Z * Z * string)) :
  List.length
    (List.filter
       (fun p : Z * Z * string =>
          let '(a, b, t) := p in
          String.eqb t tags && ((a =? offset + j) || (b =? offset + j)))
       (List.map
          (fun p : Z * Z * string =>
             let '(a, b, t) := p in (a + offset, b + offset, t))
          l)) =
  List.length
    (List.filter
       (fun p : Z * Z * string =>
          let '(a, b, t) := p in
          String.eqb t tags && ((a =? j) || (b =? j)))
       l).
Proof.
  induction l as [|[[a b] t] l IH]; [reflexivity|].
  cbn [List.map List.filter].
  replace (a + offset =? offset + j) with (a =? j)
    by (destruct (Z.eqb_spec a j), (Z.eqb_spec (a + offset) (offset + j));
        lia || reflexivity).
  replace (b + offset =? offset + j) with (b =? j)
    by (destruct (Z.eqb_spec b j), (Z.eqb_spec (b + offset) (offset + j));
        lia || reflexivity).
  destruct (String.eqb t tags && ((a =? j) || (b =? j)));
    cbn [List.length]; now rewrite IH.
Qed.

(** The pairs of the robot are those of the robot numbered from 0, moved
    by the offset. *)
Lemma addRobot_pairs (offset : Z) (tankToOuterRing : double) :
  pairs (fst (addRobot cos sin asin sqrt pow [] offset tankToOuterRing)) =
  List.map
    (fun p : Z * Z * string =>
       let '(a, b, t) := p in (a + offset, b + offset, t))
    (pairs (fst (addRobot cos sin asin sqrt pow [] 0 tankToOuterRing))).
Proof.
  unfold addRobot, addActuators, addRods, addNodes. cbn [fst].
  rewrite !pairs_app. cbn [pairs app List.map].
  repeat (f_equal; try lia).
Qed.

(** The robot is appended to the structure it is added to. *)
Lemma addRobot_appends (s : tgStructure) (offset : Z)
    (tankToOuterRing : double) :
  fst (addRobot cos sin asin sqrt pow s offset tankToOuterRing) =
  (s ++ fst (addRobot cos sin asin sqrt pow [] offset tankToOuterRing))%list.
Proof.
  unfold addRobot, addActuators, addRods, addNodes. cbn [fst].
  cbn [app]. now rewrite <- !app_assoc.
Qed.

Lemma degree_app (tags : string) (i : Z) (s1 s2 : tgStructure) :
  degree tags i (s1 ++ s2) = (degree tags i s1 + degree tags i s2)%nat.
Proof.
  unfold degree. now rewrite pairs_app, List.filter_app, List.length_app.
Qed.

(** A pair that names existing nodes does not reach the nodes added later. *)
Lemma degree_beyond (tags : string) (i n : Z) (s : tgStructure) :
  pairs_in_range n s = true ->
  n + node_count s <= i ->
  degree tags i s = 0%nat.
Proof.
  pose proof node_count_nonneg as Hnn.
  revert n. induction s as [|c s IH]; intros n Hs Hi; [reflexivity|].
  destruct c as [x y z|a b t|? ? ?|?]; cbn [pairs_in_range node_count] in Hs, Hi.
  - apply (IH (n + 1)); [exact Hs | lia].
  - rewrite !andb_true_iff, !Z.leb_le, !Z.ltb_lt in Hs.
    destruct Hs as [[[[Ha0 Han] Hb0] Hbn] Hrest].
    specialize (Hnn s).
    unfold degree in *. cbn [pairs List.filter].
    replace (a =? i) with false by (symmetry; apply Z.eqb_neq; lia).
    replace (b =? i) with false by (symmetry; apply Z.eqb_neq; lia).
    rewrite andb_false_r. now apply (IH n).
  - now apply (IH n).
  - now apply (IH n).
Qed.

(** X16. [addRobot] adds a six-bar tensegrity.  Called on a structure whose
    pairs all name existing nodes, with the number of its nodes as the
    offset (and [offset + 12] fitting an [int]), it adds twelve nodes, the
    nodes [offset .. offset + 11], and in the structure it leaves each of
    them is the end of exactly one pair tagged rod and of exactly four pairs
    tagged muscle. *)
Theorem X16_addRobot_is_a_six_bar_tensegrity
    (s : tgStructure) (offset : Z) (tankToOuterRing : double) (j : Z) :
  pairs_in_range 0 s = true ->
  offset = node_count s ->
  offset + 12 <= INT_MAX ->
  0 <= j < 12 ->
  let robot :=
    fst (addRobot cos sin asin sqrt pow s offset tankToOuterRing) in
  node_count robot = node_count s + 12 /\
  degree "rod" (offset + j) robot = 1%nat /\
  degree "muscle" (offset + j) robot = 4%nat.
Proof.
  intros Hs Hoff _ Hj. cbv zeta. rewrite addRobot_appends. split.
  - unfold addRobot, addActuators, addRods, addNodes. cbn [fst].
    rewrite !node_count_app. cbn [node_count app]. lia.
  - rewrite !degree_app.
    rewrite !(degree_beyond _ (offset + j) 0 s Hs) by lia.
    cbn [Nat.add]. unfold degree. rewrite addRobot_pairs, !degree_shift.
    assert (Hcases : j = 0 \/ j = 1 \/ j = 2 \/ j = 3 \/ j = 4 \/ j = 5 \/
                     j = 6 \/ j = 7 \/ j = 8 \/ j = 9 \/ j = 10 \/ j = 11)
      by lia.
    repeat (destruct Hcases as [->|Hcases];
            [split; vm_compute; reflexivity|]).
    subst j. split; vm_compute; reflexivity.
Qed.

(** ** The structure [setup] builds *)

(** X17. The structure that [setup] fills is well numbered: it has 117
    nodes, the running offset ends at 117, every one of its 140 pairs names
    two nodes that exist when the pair is added, no pair joins a node to
    itself and no two pairs join the same two nodes; the thruster starts at
    node 114, the node number given to the marker. *)
Theorem X17_setup_structure_is_well_numbered :
  let built := setup_structure cos sin asin sqrt pow in
  node_count (structure built) = 117 /\
  globalOffset built = 117 /\
  List.length (pairs (structure built)) = 140%nat /\
  pairs_in_range 0 (structure built) = true /\
  simple_pairs (pairs (structure built)) = true /\
  thrusterNode built = 114 /\
  In (114, 115, "thruster"%string) (pairs (structure built)).
Proof.
  cbv zeta.
  split; [vm_compute; reflexivity|].
  split; [vm_compute; reflexivity|].
  split; [vm_compute; reflexivity|].
  split; [vm_compute; reflexivity|].
  split; [vm_compute; reflexivity|].
  split; [vm_compute; reflexivity|].
  vm_compute. tauto.
Qed.


End PrismFacts.


(** The robot, then a ring of 48 nodes and the payload on top of it. *)
Lemma X15_builders_keep_the_numbering_witness :
  let robot :=
    PrismModel.addRobot PrismModel.flat PrismModel.flat PrismModel.flat
                        PrismModel.flat PrismModel.flat2 [] 0 2 in
  PrismModel.pairs_in_range 0 (fst robot) = true /\
  snd robot = PrismModel.node_count (fst robot) /\
  (let ring :=
     PrismModel.addRing PrismModel.flat PrismModel.flat (fst robot) 1 48
                        (snd robot) in
   PrismModel.pairs_in_range 0 (fst ring) = true /\
   snd ring = PrismModel.node_count (fst ring)) /\
  (let thruster := PrismModel.addThruster (fst robot) 3 (snd robot) 4 in
   PrismModel.pairs_in_range 0 (fst thruster) = true /\
   snd thruster = PrismModel.node_count (fst thruster)).
Proof.
  cbv zeta.
  destruct (X15_builders_keep_the_numbering
              PrismModel.flat PrismModel.flat PrismModel.flat
              PrismModel.flat PrismModel.flat2 [] 0 eq_refl eq_refl)
    as (Hrobot & _).
  destruct (Hrobot 2%Q) as [Hr1 Hr2]; [vm_compute; discriminate|].
  destruct (X15_builders_keep_the_numbering
              PrismModel.flat PrismModel.flat PrismModel.flat
              PrismModel.flat PrismModel.flat2 _ _ Hr1 Hr2)
    as (_ & Hring & _ & Hthruster & _).
  split; [exact Hr1|]. split; [exact Hr2|]. split.
  - apply Hring; vm_compute; discriminate.
  - apply Hthruster; [vm_compute; discriminate|].
    split; [discriminate | reflexivity].
Defined.

(** Node 7 of a robot added on top of a ring of three nodes: node 10. *)
Lemma X16_addRobot_is_a_six_bar_tensegrity_witness :
  let ring :=
    fst (PrismModel.addRing PrismModel.flat PrismModel.flat [] 1 3 0) in
  let robot :=
    fst (PrismModel.addRobot PrismModel.flat PrismModel.flat PrismModel.flat
                             PrismModel.flat PrismModel.flat2 ring 3 2) in
  PrismModel.pairs_in_range 0 ring = true /\
  PrismModel.node_count ring = 3%Z /\
  PrismModel.node_count robot = 15%Z /\
  PrismModel.degree "rod" 10 robot = 1%nat /\
  PrismModel.degree "muscle" 10 robot = 4%nat.
Proof.
  cbv zeta. split; [reflexivity|]. split; [reflexivity|].
  apply (X16_addRobot_is_a_six_bar_tensegrity
           PrismModel.flat PrismModel.flat PrismModel.flat
           PrismModel.flat PrismModel.flat2
           (fst (PrismModel.addRing PrismModel.flat PrismModel.flat [] 1 3 0))
           3 2 7).
  - reflexivity.
  - reflexivity.
  - vm_compute; discriminate.
  - split; [discriminate | reflexivity].
Defined.

(** * The time kept by v4TensionController *)

Section ControllerFacts.

Import v4TensionController.

Lemma endEffectorCOM_first (subject : v4Model) (rod : tgRod)
    (rest : list tgRod) :
  find_endeffector subject = rod :: rest ->
  endEffectorCOM subject = Ok (centerOfMass rod).
Proof.
  intro H. unfold endEffectorCOM. now rewrite H.
Qed.

Lemma endEffectorCOM_none (subject : v4Model) :
  find_endeffector subject = [] ->
  endEffectorCOM subject = Raise (assertion_failure "!endEffector.empty()").
Proof.
  intro H. unfold endEffectorCOM. now rewrite H.
Qed.

(** What an accepted run leaves, from any state of the controller. *)
Lemma onSteps_accepted (ticks : list (v4Model * double)) (w : World) :
  Forall accepted ticks ->
  onSteps ticks w =
  (Ok tt,
   mkWorld
     (mkController (m_initialLengths (self w))
                   (fold_left Qplus (List.map snd ticks) (m_totalTime (self w)))
                   (initPos (self w)))
     (cout w ++ lines_from (m_totalTime (self w)) ticks)).
Proof.
  revert w. induction ticks as [|[subject dt] ticks IH]; intros w Hall.
  - cbn. rewrite app_nil_r. now destruct w as [[] ?].
  - inversion Hall as [|tick rest [Hdt Hrods] Hrest]; subst.
    cbn [fst snd] in Hdt, Hrods.
    destruct (find_endeffector subject) as [|rod rods] eqn:E; [congruence|].
    cbn [onSteps]. unfold onStep.
    rewrite (proj2 (DoubleFacts.leb_gt dt 0) Hdt).
    rewrite (endEffectorCOM_first subject rod rods E).
    rewrite (IH _ Hrest).
    cbn [self cout m_initialLengths m_totalTime initPos List.map fold_left
         lines_from].
    rewrite E, <- app_assoc. reflexivity.
Qed.

(** X18. After [onSetup] on a model with an end effector, a run of steps
    that all have a positive time step and a model with an end effector
    never fails; the total time is the sum of the time steps, whatever it
    was before the setup; the initial position is the centre of mass seen at
    the setup; and one line is printed per step, with the running total of
    the time and the centre of mass of the first end-effector rod at that
    step. *)
Theorem X18_time_is_the_sum_of_the_steps
    (subject : v4Model) (rod : tgRod) (rods : list tgRod)
    (ticks : list (v4Model * double)) (w : World) :
  find_endeffector subject = rod :: rods ->
  Forall accepted ticks ->
  let w0 := snd (onSetup subject w) in
  fst (onSetup subject w) = Ok tt /\
  onSteps ticks w0 =
  (Ok tt,
   mkWorld
     (mkController (m_initialLengths (self w))
                   (fold_left Qplus (List.map snd ticks) 0)
                   (centerOfMass rod))
     (cout w ++ lines_from 0 ticks)) /\
  List.length (lines_from 0 ticks) = List.length ticks.
Proof.
  intros Hrod Hall. cbv zeta. unfold onSetup.
  rewrite (endEffectorCOM_first subject rod rods Hrod). cbn [fst snd].
  split; [reflexivity|]. split.
  - rewrite (onSteps_accepted ticks _ Hall). reflexivity.
  - generalize 0 as t. induction Hall as [|[m dt] rest [_ Hm] _ IH]; intro t.
    + reflexivity.
    + cbn [fst] in Hm. cbn [lines_from].
      destruct (find_endeffector m); [congruence|].
      cbn [List.length]. now rewrite IH.
Qed.

(** X19. The failures of the controller.  [onStep] with a time step that
    is not positive throws and leaves the time and the output as they were.
    [onStep] on a model without end effector fails its assertion after the
    time step has been added to the total time, and prints nothing.
    [onSetup] on such a model fails its assertion before anything is
    written, so the total time is not reset. *)
Theorem X19_controller_failures (subject : v4Model) (dt : double) (w : World) :
  (dt <= 0 ->
   onStep subject dt w = (Raise (invalid_argument "dt is not positive"), w)) /\
  (0 < dt -> find_endeffector subject = [] ->
   fst (onStep subject dt w) =
     Raise (assertion_failure "!endEffector.empty()") /\
   m_totalTime (self (snd (onStep subject dt w))) =
     m_totalTime (self w) + dt /\
   cout (snd (onStep subject dt w)) = cout w) /\
  (find_endeffector subject = [] ->
   onSetup subject w = (Raise (assertion_failure "!endEffector.empty()"), w)).
Proof.
  split; [|split].
  - intro Hdt. unfold onStep.
    now rewrite (proj2 (DoubleFacts.leb_le dt 0) Hdt).
  - intros Hdt Hnone. unfold onStep.
    rewrite (proj2 (DoubleFacts.leb_gt dt 0) Hdt).
    rewrite (endEffectorCOM_none subject Hnone). repeat split.
  - intro Hnone. unfold onSetup.
    now rewrite (endEffectorCOM_none subject Hnone).
Qed.

End ControllerFacts.

(** A setup and three ticks of 0.001, 0.001 and 0.002: the time ends at
    0.004 and three lines are printed. *)
Lemma X18_time_is_the_sum_of_the_steps_witness :
  Forall v4TensionController.accepted v4TensionController.three_ticks /\
  exists w,
    v4TensionController.onSteps v4TensionController.three_ticks
      (snd (v4TensionController.onSetup
              (v4TensionController.model_at (mkVector3 0 10 0))
              v4TensionController.fresh)) = (Ok tt, w) /\
    v4TensionController.m_totalTime (v4TensionController.self w) == 0.004 /\
    List.length (v4TensionController.cout w) = 3%nat.
Proof.
  assert (Hall : Forall v4TensionController.accepted
                        v4TensionController.three_ticks).
  { repeat constructor; cbn; discriminate. }
  split; [exact Hall|].
  destruct (X18_time_is_the_sum_of_the_steps
              (v4TensionController.model_at (mkVector3 0 10 0))
              (v4TensionController.mkRod (mkVector3 0 10 0)) []
              v4TensionController.three_ticks v4TensionController.fresh
              eq_refl Hall) as (_ & Hrun & Hlen).
  eexists. split; [exact Hrun|]. split; [eval_closed|].
  cbn [v4TensionController.cout v4TensionController.fresh app].
  exact Hlen.
Defined.

(** A step of -0.5, and a step and a setup on a model without end
    effector. *)
Lemma X19_controller_failures_witness :
  - 0.5 <= 0 /\
  v4TensionController.onStep
    (v4TensionController.model_at (mkVector3 0 10 0)) (- 0.5)
    v4TensionController.fresh =
  (Raise (invalid_argument "dt is not positive"), v4TensionController.fresh) /\
  0 < 0.001 /\
  fst (v4TensionController.onStep (v4TensionController.mkModel []) 0.001
         v4TensionController.fresh) =
  Raise (assertion_failure "!endEffector.empty()") /\
  v4TensionController.m_totalTime
    (v4TensionController.self
       (snd (v4TensionController.onStep (v4TensionController.mkModel []) 0.001
               v4TensionController.fresh))) == 0.001 /\
  v4TensionController.onSetup (v4TensionController.mkModel [])
    v4TensionController.fresh =
  (Raise (assertion_failure "!endEffector.empty()"), v4TensionController.fresh).
Proof.
  assert (Hneg : - 0.5 <= 0) by eval_closed.
  assert (Hpos : 0 < 0.001) by eval_closed.
  destruct (X19_controller_failures
              (v4TensionController.model_at (mkVector3 0 10 0)) (- 0.5)
              v4TensionController.fresh) as (Hreject & _ & _).
  destruct (X19_controller_failures
              (v4TensionController.mkModel []) 0.001
              v4TensionController.fresh) as (_ & Hstep & Hsetup).
  destruct (Hstep Hpos eq_refl) as (Hfail & Htime & _).
  split; [exact Hneg|]. split; [exact (Hreject Hneg)|].
  split; [exact Hpos|]. split; [exact Hfail|].
  split; [rewrite Htime; eval_closed | exact (Hsetup eq_refl)].
Defined.

(** * The file name that main accepts *)

Section MainFacts.

Import AppPrismModel.

Lemma substring_after (before s : string) (n : nat) :
  substring (String.length before) n (before ++ s) = substring 0 n s.
Proof.
  induction before as [|c before IH]; [reflexivity|].
  cbn [String.length append substring]. exact IH.
Qed.

Lemma substring_whole (s after : string) :
  substring 0 (String.length s) (s ++ after) = s.
Proof.
  induction s as [|c s IH]; cbn [String.length append substring].
  - now destruct after.
  - now rewrite IH.
Qed.

(** A text found at a position splits the string around it. *)
Lemma substring_splits (pattern : string) (m : nat) (s : string) :
  pattern <> EmptyString ->
  substring m (String.length pattern) s = pattern ->
  contains pattern s.
Proof.
  intro Hne. revert m. induction s as [|c s IH]; intros m H.
  - destruct m, pattern; cbn in H; congruence.
  - destruct m as [|m].
    + destruct pattern as [|p pattern]; [congruence|].
      cbn [String.length substring] in H. injection H as -> H.
      exists EmptyString.
      assert (Hrest : exists after, s = (pattern ++ after)%string).
      { clear -H. revert s H.
        induction pattern as [|q pattern IHp]; intros s H.
        - exists s. reflexivity.
        - destruct s as [|d s]; cbn [String.length substring] in H;
            [discriminate|].
          injection H as -> H. destruct (IHp s H) as [after ->].
          exists after. reflexivity. }
      destruct Hrest as [after ->]. exists after. reflexivity.
    + cbn [substring] in H. destruct (IH m H) as (before & after & ->).
      exists (String c before), after. reflexivity.
Qed.

(** [find] returns [npos] exactly when the text is nowhere in the string. *)
Lemma not_found_iff (pattern s : string) :
  pattern <> EmptyString ->
  (not_found pattern s = true <-> ~ contains pattern s).
Proof.
  intro Hne. unfold not_found.
  destruct (String.index 0 pattern s) as [m|] eqn:E; split.
  - discriminate.
  - intro Hnot. exfalso. apply Hnot.
    exact (substring_splits pattern m s Hne (index_correct1 _ _ _ _ E)).
  - intros _ (before & after & ->).
    apply (index_correct3 0 (String.length before) _ _ E Hne (Nat.le_0_l _)).
    rewrite substring_after. apply substring_whole.
  - reflexivity.
Qed.

(** X20. [main] accepts a file name when the text ".txt" occurs anywhere
    in it, not only at its end.  When the first argument does not contain
    ".txt", [main] prints its banner and the filetype message and exits with
    [EXIT_FAILURE] without opening any file.  When it contains ".txt", the
    file is opened under that name: if it opens, the simulation runs for
    35000 steps on it and [main] returns 0; if not, [main] prints that it
    failed to open the file and exits with [EXIT_FAILURE]. *)
Theorem X20_main_accepts_any_name_with_txt
    (program filename : string) (more : list string)
    (is_open : string -> bool) :
  let banner := cout "**--** Test Hinge Julien Despois **--**" in
  (~ contains ".txt" filename ->
   main (program :: filename :: more) is_open =
   ([banner;
     cout "Incorrect filetype, input file should be a .txt file"],
    Ok (exited EXIT_FAILURE))) /\
  (contains ".txt" filename -> is_open filename = true ->
   main (program :: filename :: more) is_open =
   ([banner; open_file filename; cout "Input file opened successfully";
     run_simulation filename 35000],
    Ok (returned 0))) /\
  (contains ".txt" filename -> is_open filename = false ->
   main (program :: filename :: more) is_open =
   ([banner; open_file filename; cout "Failed to open input file"],
    Ok (exited EXIT_FAILURE))).
Proof.
  cbv zeta.
  assert (Hne : ".txt"%string <> EmptyString) by discriminate.
  pose proof (not_found_iff ".txt" filename Hne) as Hfind.
  unfold main. cbn [List.nth_error].
  split; [|split].
  - intro Hnot. now rewrite (proj2 Hfind Hnot).
  - intros Hin Hopen.
    destruct (not_found ".txt" filename) eqn:E;
      [exfalso; exact (proj1 Hfind eq_refl Hin)|].
    now rewrite Hopen.
  - intros Hin Hopen.
    destruct (not_found ".txt" filename) eqn:E;
      [exfalso; exact (proj1 Hfind eq_refl Hin)|].
    now rewrite Hopen.
Qed.

End MainFacts.

(** A file name with another extension, and one that only has ".txt" in
    the middle. *)
Lemma X20_main_accepts_any_name_with_txt_witness :
  ~ AppPrismModel.contains ".txt" "ground.obj" /\
  AppPrismModel.main ["AppPrismModel"; "ground.obj"]%string (fun _ => true) =
  ([AppPrismModel.cout "**--** Test Hinge Julien Despois **--**";
    AppPrismModel.cout "Incorrect filetype, input file should be a .txt file"],
   Ok (AppPrismModel.exited AppPrismModel.EXIT_FAILURE)) /\
  AppPrismModel.contains ".txt" "ground.txt.bak" /\
  AppPrismModel.main ["AppPrismModel"; "ground.txt.bak"]%string
                     (fun _ => true) =
  ([AppPrismModel.cout "**--** Test Hinge Julien Despois **--**";
    AppPrismModel.open_file "ground.txt.bak";
    AppPrismModel.cout "Input file opened successfully";
    AppPrismModel.run_simulation "ground.txt.bak" 35000],
   Ok (AppPrismModel.returned 0)).
Proof.
  assert (Hobj : ~ AppPrismModel.contains ".txt" "ground.obj").
  { apply not_found_iff; [discriminate | reflexivity]. }
  assert (Hbak : AppPrismModel.contains ".txt" "ground.txt.bak")
    by (exists "ground"%string, ".bak"%string; reflexivity).
  split; [exact Hobj|].
  split; [exact (proj1 (X20_main_accepts_any_name_with_txt
                          "AppPrismModel" "ground.obj" [] (fun _ => true))
                       Hobj)|].
  split; [exact Hbak|].
  exact (proj1 (proj2 (X20_main_accepts_any_name_with_txt
                         "AppPrismModel" "ground.txt.bak" []
                         (fun _ => true))) Hbak eq_refl).
Defined.
